(** * EditableGrid: the change-overlay engine of app/components/EditableGrid.tsx

    A shallow embedding of the component's change tracking: the rows and the
    [ChangeState] record are JavaScript objects, so both are kept as
    association lists in property enumeration order; [deepEqual] is the
    comparison of the two [JSON.stringify] outputs, as in the source. *)

From Stdlib Require Import String Ascii List ZArith NArith Bool Lia.
From Stdlib Require Import DecimalString Sorted.
Import ListNotations.
Open Scope string_scope.

(** ** JavaScript values

    Numbers are restricted to integers (those a row of the grid carries: ages,
    counters, numeric ids), of magnitude below 2^53: these are the integers a
    JavaScript number holds exactly, and their string form is the plain
    decimal one (from 1e21 on [String(n)] switches to exponent form).
    IEEE-754 specifics are outside the model.  Values are plain data; objects
    that Immer does not draft (a [Date]) are added at the end of the
    definitions, with the store they live in. *)

#[warnings="-register-all"]
Inductive value : Type :=
| VUndefined : value
| VNull : value
| VBool : bool -> value
| VNum : Z -> value
| VStr : string -> value
| VArr : list value -> value
| VObj : list (string * value) -> value.

(** An object: its own enumerable string-keyed properties, in the order
    [Object.keys] / [Object.entries] / [JSON.stringify] visit them. *)
Definition jsobj (V : Type) : Type := list (string * V).

(** A row of the grid ([T extends Record<string, unknown>]). *)
Definition Row : Type := jsobj value.

(** ** Property keys and their order *)

Definition digit_ascii (a : ascii) : bool :=
  let n := nat_of_ascii a in (48 <=? n)%nat && (n <=? 57)%nat.

Fixpoint all_digits (s : string) : bool :=
  match s with
  | EmptyString => true
  | String a s' => digit_ascii a && all_digits s'
  end.

(** Base-ten value of a string of digits. *)
Fixpoint digits_value (acc : N) (s : string) : N :=
  match s with
  | EmptyString => acc
  | String a s' => digits_value (10 * acc + (N_of_ascii a - 48))%N s'
  end.

(** [array_index k] is [Some n] when [k] is the canonical decimal form of an
    integer [n] with [0 <= n < 2^32 - 1] (an "array index" property key). *)
Definition array_index (k : string) : option N :=
  match k with
  | EmptyString => None
  | String a rest =>
      if all_digits k && (negb (Ascii.eqb a "0"%char) || String.eqb rest EmptyString)
      then
        if (String.length k <=? 10)%nat
        then let n := digits_value 0%N k in
             if (n <? 4294967295)%N then Some n else None
        else None
      else None
  end.

Section Objects.
Context {V : Type}.

(** [o[k]] *)
Fixpoint obj_get (k : string) (o : jsobj V) : option V :=
  match o with
  | [] => None
  | (k', v) :: o' => if String.eqb k' k then Some v else obj_get k o'
  end.

(** [delete o[k]] *)
Fixpoint obj_delete (k : string) (o : jsobj V) : jsobj V :=
  match o with
  | [] => []
  | (k', v) :: o' =>
      if String.eqb k' k then obj_delete k o' else (k', v) :: obj_delete k o'
  end.

(** Assignment to a property that exists keeps its place. *)
Fixpoint obj_replace (k : string) (v : V) (o : jsobj V) : jsobj V :=
  match o with
  | [] => []
  | (k', v') :: o' =>
      if String.eqb k' k then (k, v) :: o' else (k', v') :: obj_replace k v o'
  end.

(** A new array-index key goes before the first key that is a larger index
    or is not an index at all. *)
Fixpoint obj_insert_index (n : N) (k : string) (v : V) (o : jsobj V) : jsobj V :=
  match o with
  | [] => [(k, v)]
  | (k', v') :: o' =>
      match array_index k' with
      | Some n' =>
          if (n <? n')%N then (k, v) :: o
          else (k', v') :: obj_insert_index n k v o'
      | None => (k, v) :: o
      end
  end.

(** [o[k] = v]: integer-like keys are enumerated first, in ascending numeric
    order, then the other keys in the order they were created. *)
Definition obj_set (k : string) (v : V) (o : jsobj V) : jsobj V :=
  match obj_get k o with
  | Some _ => obj_replace k v o
  | None =>
      match array_index k with
      | Some n => obj_insert_index n k v o
      | None => (o ++ [(k, v)])%list
      end
  end.
End Objects.

(** ** String forms *)

Definition Z_to_string (z : Z) : string := NilZero.string_of_int (Z.to_int z).

Definition join_comma (l : list string) : string := String.concat "," l.

(** [String(v)], used when a value serves as a property key ([changes[id]]). *)
Fixpoint to_key (v : value) : string :=
  match v with
  | VUndefined => "undefined"
  | VNull => "null"
  | VBool true => "true"
  | VBool false => "false"
  | VNum z => Z_to_string z
  | VStr s => s
  | VArr l =>
      join_comma
        ((fix elems (l : list value) : list string :=
            match l with
            | [] => []
            | VUndefined :: l' => EmptyString :: elems l'
            | VNull :: l' => EmptyString :: elems l'
            | x :: l' => to_key x :: elems l'
            end) l)
  | VObj _ => "[object Object]"
  end.

Definition dquote : ascii := ascii_of_nat 34.

Definition hex_digit (n : nat) : ascii :=
  if (n <? 10)%nat then ascii_of_nat (48 + n) else ascii_of_nat (87 + n).

(** The escape of one character inside a JSON string literal. *)
Definition json_escape (a : ascii) : string :=
  let n := nat_of_ascii a in
  if (n =? 34)%nat then String "\" (String dquote EmptyString)
  else if (n =? 92)%nat then "\\"
  else if (n =? 8)%nat then "\b"
  else if (n =? 12)%nat then "\f"
  else if (n =? 10)%nat then "\n"
  else if (n =? 13)%nat then "\r"
  else if (n =? 9)%nat then "\t"
  else if (n <? 32)%nat
       then "\u00" ++ String (hex_digit (n / 16)) (String (hex_digit (n mod 16)) EmptyString)
       else String a EmptyString.

Fixpoint json_escape_all (s : string) : string :=
  match s with
  | EmptyString => EmptyString
  | String a s' => json_escape a ++ json_escape_all s'
  end.

Definition json_quote (s : string) : string :=
  String dquote (json_escape_all s ++ String dquote EmptyString).

(** [JSON.stringify(v)]; [None] is the result [undefined]. *)
Fixpoint JSON_stringify (v : value) : option string :=
  match v with
  | VUndefined => None
  | VNull => Some "null"
  | VBool true => Some "true"
  | VBool false => Some "false"
  | VNum z => Some (Z_to_string z)
  | VStr s => Some (json_quote s)
  | VArr l =>
      Some ("[" ++ join_comma
        ((fix elems (l : list value) : list string :=
            match l with
            | [] => []
            | x :: l' =>
                match JSON_stringify x with
                | Some s => s
                | None => "null"
                end :: elems l'
            end) l) ++ "]")
  | VObj o =>
      Some ("{" ++ join_comma
        ((fix members (o : list (string * value)) : list string :=
            match o with
            | [] => []
            | (k, x) :: o' =>
                match JSON_stringify x with
                | Some s => (json_quote k ++ ":" ++ s) :: members o'
                | None => members o'
                end
            end) o) ++ "}")
  end.

Definition option_string_eqb (a b : option string) : bool :=
  match a, b with
  | Some x, Some y => String.eqb x y
  | None, None => true
  | _, _ => false
  end.

(** [deepEqual(obj1, obj2)]: [JSON.stringify(obj1) === JSON.stringify(obj2)]. *)
Definition deepEqual (obj1 obj2 : value) : bool :=
  option_string_eqb (JSON_stringify obj1) (JSON_stringify obj2).

(** [a === b] on primitives: same type and same value.  Identities are
    strings or numbers ([getRowId] is declared [string | number]); object and
    array references are not part of the model, and two such values are never
    judged identical. *)
Definition strict_eq (a b : value) : bool :=
  match a, b with
  | VUndefined, VUndefined => true
  | VNull, VNull => true
  | VBool x, VBool y => Bool.eqb x y
  | VNum x, VNum y => Z.eqb x y
  | VStr x, VStr y => String.eqb x y
  | _, _ => false
  end.

Open Scope list_scope.

(** ** The data model of the component *)

Inductive RowModificationState : Type := Added | Modified | Deleted.

(** [Modification<T>]: [{type, data}], with [data: null] exactly when the
    type is [Deleted]. *)
Inductive Modification : Type :=
| ModAdded (data : Row)
| ModModified (data : Row)
| ModDeleted.

Definition mod_type (m : Modification) : RowModificationState :=
  match m with
  | ModAdded _ => Added
  | ModModified _ => Modified
  | ModDeleted => Deleted
  end.


(** [ChangeState<T> = Record<string | number, Modification<T>>] *)
Definition ChangeState : Type := jsobj Modification.

(** What running host code gives: a value, or an exception. *)
Inductive result (A : Type) : Type :=
| Ok (a : A)
| Throw.
Arguments Ok {A} a.
Arguments Throw {A}.

(** A callback handed to [modifySelectedRows].  It is run by Immer's
    [produce(selectedRow, callback)] on a draft: for a row of plain data the
    selected row itself is never written, and the call yields the next row, or
    throws.  (For rows holding a [Date] see [produce_live] below.) *)
Definition Callback : Type := Row -> result Row.

(** The props ([rowData], [idField], whether [onChange] is given), the two
    pieces of React state ([changes], [gridApi]) and the trace of the
    [onChange] calls.  [gridApi] is [None] until [onGridReady]; afterwards it
    answers [getSelectedRows()] with the rows it carries. *)
Record Grid : Type := mkGrid {
  rowData : list Row;
  idField : string;
  onChange : bool;
  changes : ChangeState;
  gridApi : option (list Row);
  notified : list ChangeState
}.

(** The component as first rendered. *)
Definition initial (rows : list Row) (field : string) (notify : bool) : Grid :=
  mkGrid rows field notify [] None [].

Definition getRowId (g : Grid) (row : Row) : value :=
  match obj_get (idField g) row with
  | Some v => v
  | None => VUndefined
  end.

(** The property key under which [changes[getRowId(row)]] is read and written. *)
Definition row_key (g : Grid) (row : Row) : string := to_key (getRowId g row).

(** [setChanges(newChanges); if (onChange) onChange(newChanges)] *)
Definition updateChanges (newChanges : ChangeState) (g : Grid) : Grid :=
  mkGrid (rowData g) (idField g) (onChange g) newChanges (gridApi g)
    (if onChange g then (notified g ++ [newChanges])%list else notified g).

Definition getRowModificationState (g : Grid) (row : Row)
  : option RowModificationState :=
  option_map mod_type (obj_get (row_key g row) (changes g)).

(** [rowData.find(r => getRowId(r) === id)] *)
Definition find_original (g : Grid) (id : value) : option Row :=
  find (fun r => strict_eq (getRowId g r) id) (rowData g).

(** [effectiveRowData]: the two loops, each pushing onto [result]. *)
Definition effectiveRowData (g : Grid) : list Row :=
  let result :=
    fold_left
      (fun (result : list Row) (originalRow : Row) =>
         match obj_get (row_key g originalRow) (changes g) with
         | Some (ModModified data) => (result ++ [data])%list
         | _ => (result ++ [originalRow])%list
         end)
      (rowData g) [] in
  fold_left
    (fun (result : list Row) (entry : string * Modification) =>
       match snd entry with
       | ModAdded data => (result ++ [data])%list
       | _ => result
       end)
    (changes g) result.

Definition getChanges (g : Grid) : ChangeState := changes g.

Definition onGridReady (g : Grid) : Grid :=
  mkGrid (rowData g) (idField g) (onChange g) (changes g) (Some []) (notified g).

(** The user ticks rows in the rendered grid: what [getSelectedRows()] will
    answer at the next call.  Nothing can be selected before the grid is
    ready.  After a change of the view the rows the grid answers with are the
    ones then shown: select again before the next operation. *)
Definition gridSelect (rows : list Row) (g : Grid) : Grid :=
  match gridApi g with
  | None => g
  | Some _ =>
      mkGrid (rowData g) (idField g) (onChange g) (changes g) (Some rows) (notified g)
  end.

(** [gridApi.deselectAll()] *)
Definition deselectAll (g : Grid) : Grid := gridSelect [] g.

(** The overlay is written through an Immer draft.  [draft[k] = m] creates or
    replaces the property [k], as [obj_set] does, for every key but one: at
    ["__proto__"] the assignment reaches the setter inherited from
    [Object.prototype] and Immer throws.  The operations below are the code
    for all other keys; a statement about a write names this as a hypothesis. *)
Definition draft_key (k : string) : Prop := k <> "__proto__".

Definition undoRow (row : Row) (g : Grid) : Grid :=
  updateChanges (obj_delete (row_key g row) (changes g)) g.

Definition addRow (row : Row) (g : Grid) : Grid :=
  updateChanges (obj_set (row_key g row) (ModAdded row) (changes g)) g.

(** One turn of the loop of [deleteSelectedRows]. *)
Definition delete_row (g : Grid) (draft : ChangeState) (row : Row) : ChangeState :=
  let id := row_key g row in
  match obj_get id draft with
  | Some (ModAdded _) => obj_delete id draft
  | _ => obj_set id ModDeleted draft
  end.

Definition deleteSelectedRows (g : Grid) : Grid :=
  match gridApi g with
  | None => g
  | Some selectedRows =>
      let newChanges := fold_left (delete_row g) selectedRows (changes g) in
      deselectAll (updateChanges newChanges g)
  end.

Definition reset (g : Grid) : Grid := updateChanges [] g.

(** One turn of the [forEach] of [modifySelectedRows]. *)
Definition modify_row (callback : Callback) (g : Grid)
    (draft : ChangeState) (selectedRow : Row) : result ChangeState :=
  let id := getRowId g selectedRow in
  let currentMod := obj_get (to_key id) draft in
  match currentMod with
  | Some ModDeleted => Ok draft
  | _ =>
      match callback selectedRow with
      | Throw => Throw
      | Ok modifiedRow =>
          match currentMod with
          | Some (ModAdded _) =>
              if negb (deepEqual (VObj selectedRow) (VObj modifiedRow))
              then Ok (obj_set (to_key id) (ModAdded modifiedRow) draft)
              else Ok draft
          | _ =>
              match find_original g id with
              | Some originalRow =>
                  if negb (deepEqual (VObj originalRow) (VObj modifiedRow))
                  then Ok (obj_set (to_key id) (ModModified modifiedRow) draft)
                  else Ok (obj_delete (to_key id) draft)
              | None => Ok draft
              end
          end
      end
  end.

(** The [forEach] over the selection; a throwing callback aborts the recipe. *)
Fixpoint modify_rows (callback : Callback) (g : Grid)
    (selectedRows : list Row) (draft : ChangeState) : result ChangeState :=
  match selectedRows with
  | [] => Ok draft
  | selectedRow :: rest =>
      match modify_row callback g draft selectedRow with
      | Ok draft' => modify_rows callback g rest draft'
      | Throw => Throw
      end
  end.

Definition modifySelectedRows (callback : Callback) (g : Grid) : result Grid :=
  match gridApi g with
  | None => Ok g
  | Some selectedRows =>
      match modify_rows callback g selectedRows (changes g) with
      | Ok newChanges => Ok (updateChanges newChanges g)
      | Throw => Throw
      end
  end.

(** [onCellEditRequest(event)] with [event.data = row],
    [event.colDef.field = field] and [event.newValue = newValue]. *)
Definition onCellEditRequest (row : Row) (field : option string)
    (newValue : value) (g : Grid) : Grid :=
  match field with
  | None => g
  | Some field =>
      if String.eqb field EmptyString then g
      else
        let id := getRowId g row in
        match obj_get (to_key id) (changes g) with
        | Some ModDeleted => g
        | currentMod =>
            let updatedRow := obj_set field newValue row in
            let newChanges :=
              match currentMod with
              | Some (ModAdded _) =>
                  obj_set (to_key id) (ModAdded updatedRow) (changes g)
              | _ =>
                  match find_original g id with
                  | Some originalRow =>
                      if negb (deepEqual (VObj originalRow) (VObj updatedRow))
                      then obj_set (to_key id) (ModModified updatedRow) (changes g)
                      else obj_delete (to_key id) (changes g)
                  | None => changes g
                  end
              end in
            updateChanges newChanges g
        end
  end.

(** ** Sequences of operations *)

Inductive op : Type :=
| OpGridReady
| OpSelect (rows : list Row)
| OpAddRow (row : Row)
| OpDeleteSelectedRows
| OpModifySelectedRows (callback : Callback)
| OpCellEditRequest (row : Row) (field : option string) (newValue : value)
| OpUndoRow (row : Row)
| OpReset.

Definition step (o : op) (g : Grid) : result Grid :=
  match o with
  | OpGridReady => Ok (onGridReady g)
  | OpSelect rows => Ok (gridSelect rows g)
  | OpAddRow row => Ok (addRow row g)
  | OpDeleteSelectedRows => Ok (deleteSelectedRows g)
  | OpModifySelectedRows callback => modifySelectedRows callback g
  | OpCellEditRequest row field newValue =>
      Ok (onCellEditRequest row field newValue g)
  | OpUndoRow row => Ok (undoRow row g)
  | OpReset => Ok (reset g)
  end.

(** An operation that throws leaves the component as it was: the exception
    leaves [produce] before [updateChanges] is reached.  Each operation is
    issued after the render that follows the one before it (as the tests do
    with [act]): the handlers are closures over the [changes] of the last
    render, so two calls within one render would both start from the same
    overlay. *)
Fixpoint run (ops : list op) (g : Grid) : Grid :=
  match ops with
  | [] => g
  | o :: ops' =>
      match step o g with
      | Ok g' => run ops' g'
      | Throw => run ops' g
      end
  end.

Definition reachable (rows : list Row) (field : string) (g : Grid) : Prop :=
  exists notify ops, g = run ops (initial rows field notify).

(** ** Outcomes of the selection-based operations *)

(** What [deleteSelectedRows] leaves at the key of a selected row. *)
Definition deleted_outcome (current : option Modification) : option Modification :=
  match current with
  | Some (ModAdded _) => None
  | _ => Some ModDeleted
  end.

(** The selection without the rows of identity key [k]. *)
Definition without_key (g : Grid) (k : string) (rows : list Row) : list Row :=
  filter (fun r => negb (String.eqb (row_key g r) k)) rows.

(** ** The projected view *)

(** The row shown at the place of a base row. *)
Definition project_row (g : Grid) (originalRow : Row) : Row :=
  match obj_get (row_key g originalRow) (changes g) with
  | Some (ModModified data) => data
  | _ => originalRow
  end.

(** The data of the [Added] entries, in the enumeration order of the overlay. *)
Definition added_rows (c : ChangeState) : list Row :=
  flat_map (fun entry => match snd entry with
                         | ModAdded data => [data]
                         | _ => []
                         end) c.

(** ** The enumeration order of the overlay's keys *)

(** [key_le k k']: [k] may be enumerated before [k']. *)
Definition key_le (k k' : string) : Prop :=
  match array_index k, array_index k' with
  | Some n, Some n' => (n <= n')%N
  | Some _, None => True
  | None, Some _ => False
  | None, None => True
  end.

Definition keys {V : Type} (o : jsobj V) : list string := map fst o.

Definition js_ordered {V : Type} (o : jsobj V) : Prop :=
  StronglySorted key_le (keys o).

(** ** Writes to the overlay

    Every operation changes [changes] through a series of property
    assignments and deletions (or restarts from the empty record); a
    [Modified] entry is only ever assigned next to a base row of that identity
    which is not deep-equal to the data. *)

Definition tracked_ok (g : Grid) (k : string) (m : Modification) : Prop :=
  match m with
  | ModModified data =>
      exists id originalRow,
        to_key id = k /\
        find_original g id = Some originalRow /\
        deepEqual (VObj originalRow) (VObj data) = false
  | _ => True
  end.

Inductive writes (g : Grid) : ChangeState -> ChangeState -> Prop :=
| writes_done c : writes g c c
| writes_set k m c c' :
    tracked_ok g k m -> writes g (obj_set k m c) c' -> writes g c c'
| writes_delete k c c' : writes g (obj_delete k c) c' -> writes g c c'
| writes_clear c c' : writes g [] c' -> writes g c c'.

(** Every [Modified] entry differs from the base row of its identity. *)
Definition modified_distinct (g : Grid) (c : ChangeState) : Prop :=
  forall k data,
    obj_get k c = Some (ModModified data) ->
    exists id originalRow,
      to_key id = k /\
      find_original g id = Some originalRow /\
      deepEqual (VObj originalRow) (VObj data) = false.

(** ** Sample data (the rows of the component's test suite) *)

Definition alice : Row :=
  [("id", VStr "1"); ("name", VStr "Alice"); ("age", VNum 28)].
Definition bob : Row :=
  [("id", VStr "2"); ("name", VStr "Bob"); ("age", VNum 35)].
Definition row4 : Row := [("id", VStr "4"); ("age", VNum 50)].
Definition row10 : Row := [("id", VStr "10"); ("age", VNum 25)].
Definition rowNew : Row := [("id", VStr "new"); ("age", VNum 31)].
Definition rowNoId : Row := [("name", VStr "Dana"); ("age", VNum 40)].

(** [row => { row[field] = v }] *)
Definition setField (field : string) (v : value) : Callback :=
  fun row => Ok (obj_set field v row).

(** The grid over Alice and Bob, ready, nothing selected. *)
Definition demo : Grid := onGridReady (initial [alice; bob] "id" true).

Definition aliceOlder : Row := obj_set "age" (VNum 99) alice.

Definition aliceBack : Row := obj_set "age" (VNum 28) aliceOlder.

(** ** What the grid is told to render *)

(** [undoCellRenderer]: nothing for a row without changes, else the Undo
    button, given here as the component its click leads to ([undoRow(row)]). *)
Definition undoCellRenderer (g : Grid) (row : Row) : option Grid :=
  match getRowModificationState g row with
  | None => None
  | Some _ => Some (undoRow row g)
  end.

Definition state_eqb (a b : RowModificationState) : bool :=
  match a, b with
  | Added, Added => true
  | Modified, Modified => true
  | Deleted, Deleted => true
  | _, _ => false
  end.

(** [enableByRowModificationState(state)]:
    [params => !!params.data && getRowModificationState(params.data) === state] *)
Definition enableByRowModificationState (g : Grid) (state : RowModificationState)
    (data : option Row) : bool :=
  match data with
  | None => false
  | Some row =>
      match getRowModificationState g row with
      | Some s => state_eqb s state
      | None => false
      end
  end.

(** [rowClassRules] and the [cellClassRules] of [defaultColDef]. *)
Definition rowClassRules (g : Grid) : list (string * (option Row -> bool)) :=
  [("!bg-red-100", enableByRowModificationState g Deleted);
   ("!bg-green-100", enableByRowModificationState g Added);
   ("!bg-yellow-100", enableByRowModificationState g Modified)].

Definition cellClassRules (g : Grid) : list (string * (option Row -> bool)) :=
  [("line-through", enableByRowModificationState g Deleted)].

(** The grid puts on a row (or cell) every class whose rule answers [true]. *)
Definition applied_classes (rules : list (string * (option Row -> bool)))
    (data : option Row) : list string :=
  map fst (filter (fun rule => snd rule data) rules).

(** ** The demo page (app/page.tsx) *)

Record DemoRow : Type := mkDemoRow {
  name : string;
  age : Z;
  vegetarian : bool
}.

(** The object literal [{ name, age, vegetarian }]. *)
Definition demo_row (r : DemoRow) : Row :=
  [("name", VStr (name r)); ("age", VNum (age r));
   ("vegetarian", VBool (vegetarian r))].

Definition INITIAL_DATA : list DemoRow :=
  [mkDemoRow "Alice" 28 true; mkDemoRow "Bob" 35 false;
   mkDemoRow "Charlie" 42 true; mkDemoRow "Diana" 31 false;
   mkDemoRow "Eve" 26 true; mkDemoRow "Frank" 39 false;
   mkDemoRow "Grace" 33 true; mkDemoRow "Henry" 45 false;
   mkDemoRow "Ivy" 29 true; mkDemoRow "Jack" 37 false].

(** [<EditableGrid rowData={INITIAL_DATA} idField="name" onChange={handleChanges} />] *)
Definition page_grid : Grid := initial (map demo_row INITIAL_DATA) "name" true.

(** The page's own [changes] state: [handleChanges] stores every [onChange]
    payload, so it holds the last one (and [{}] before the first). *)
Definition page_changes (g : Grid) : ChangeState := last (notified g) [].

(** [!!v] *)
Definition to_boolean (v : value) : bool :=
  match v with
  | VUndefined => false
  | VNull => false
  | VBool b => b
  | VNum z => negb (Z.eqb z 0)
  | VStr s => negb (String.eqb s EmptyString)
  | VArr _ => true
  | VObj _ => true
  end.

(** [row[field]] *)
Definition get_field (field : string) (row : Row) : value :=
  match obj_get field row with
  | Some v => v
  | None => VUndefined
  end.

(** [(row) => { row.vegetarian = !row.vegetarian; }], the callback of
    [handleToggleVegetarian]. *)
Definition toggleVegetarian : Callback :=
  fun row =>
    Ok (obj_set "vegetarian"
          (VBool (negb (to_boolean (get_field "vegetarian" row)))) row).

(** The three buttons that only forward to the handle of the mounted grid. *)
Definition handleToggleVegetarian (g : Grid) : result Grid :=
  modifySelectedRows toggleVegetarian g.

Definition handleDeleteRows (g : Grid) : Grid := deleteSelectedRows g.

Definition handleReset (g : Grid) : Grid := reset g.

Section HandleAddRow.
(** [String.prototype.trim] and [String.prototype.toLowerCase]. *)
Variables (trim toLowerCase : string -> string).

(** [handleAddRow] with the grid mounted, given what [window.prompt] answers
    ([None] for a cancelled prompt, [Some typed] for the text entered): the
    component afterwards and the alert shown, if any.  (As for every write to
    the overlay, the trimmed answer is taken to be a [draft_key].) *)
Definition handleAddRow (answer : option string) (g : Grid)
  : Grid * option string :=
  match answer with
  | None => (g, Some "Name is required!")
  | Some typed =>
      if String.eqb typed EmptyString then (g, Some "Name is required!")
      else if String.eqb (trim typed) EmptyString
      then (g, Some "Name cannot be empty!")
      else if existsb
                (fun row => String.eqb (toLowerCase (name row))
                                       (toLowerCase typed))
                INITIAL_DATA
      then (g, Some "A row with this name already exists!")
      else (addRow (demo_row (mkDemoRow (trim typed) 0 false)) g, None)
  end.
End HandleAddRow.

(** Instances exact on ASCII text, for the examples. *)
Definition ascii_lower (a : ascii) : ascii :=
  let n := nat_of_ascii a in
  if (65 <=? n)%nat && (n <=? 90)%nat then ascii_of_nat (n + 32) else a.

Fixpoint lower_ascii (s : string) : string :=
  match s with
  | EmptyString => EmptyString
  | String a s' => String (ascii_lower a) (lower_ascii s')
  end.

Definition ascii_space (a : ascii) : bool :=
  let n := nat_of_ascii a in
  (n =? 32)%nat || ((9 <=? n)%nat && (n <=? 13)%nat).

Fixpoint trim_start (s : string) : string :=
  match s with
  | EmptyString => EmptyString
  | String a s' => if ascii_space a then trim_start s' else s
  end.

Fixpoint string_rev (acc s : string) : string :=
  match s with
  | EmptyString => acc
  | String a s' => string_rev (String a acc) s'
  end.

Definition trim_ascii (s : string) : string :=
  string_rev EmptyString (trim_start (string_rev EmptyString (trim_start s))).

(** The members of an object's JSON text. *)
Definition json_members : list (string * value) -> list string :=
  fix members (o : list (string * value)) : list string :=
    match o with
    | [] => []
    | (k, x) :: o' =>
        match JSON_stringify x with
        | Some s => (json_quote k ++ ":" ++ s)%string :: members o'
        | None => members o'
        end
    end.

(** The [Modified] data stored under a key, if any. *)
Definition modified_at (c : ChangeState) (k : string) : option Row :=
  match obj_get k c with
  | Some (ModModified data) => Some data
  | _ => None
  end.

(** A row the overlay does not track, or tracks as [Deleted]. *)
Definition untracked_or_deleted (g : Grid) (c : ChangeState) (row : Row) : Prop :=
  obj_get (row_key g row) c = None \/ obj_get (row_key g row) c = Some ModDeleted.

(** What the host has been told agrees with the component's state. *)
Definition host_in_sync (g : Grid) : Prop :=
  if onChange g then page_changes g = changes g else notified g = [].

(** The JSON text of a boolean. *)
Definition bool_text (b : bool) : string := if b then "true" else "false".

(** ** Deep equality as the spec words it

    "Two rows are equal iff every field and nested value is recursively
    equal"; the order of the fields of a record does not matter, that of the
    elements of an array does.  [deepEqual] above is the code's comparison;
    the two differ on reordered fields and on fields holding [undefined]. *)
Fixpoint spec_deep_equal (a b : value) {struct a} : bool :=
  match a, b with
  | VUndefined, VUndefined => true
  | VNull, VNull => true
  | VBool x, VBool y => Bool.eqb x y
  | VNum x, VNum y => Z.eqb x y
  | VStr x, VStr y => String.eqb x y
  | VArr l1, VArr l2 =>
      (fix elems (l1 l2 : list value) : bool :=
         match l1, l2 with
         | [], [] => true
         | x :: l1', y :: l2' => spec_deep_equal x y && elems l1' l2'
         | _, _ => false
         end) l1 l2
  | VObj o1, VObj o2 =>
      forallb (fun field => match obj_get (fst field) o1 with
                            | Some _ => true
                            | None => false
                            end) o2
      && (fix fields (o : list (string * value)) : bool :=
            match o with
            | [] => true
            | (k, x) :: o' =>
                match obj_get k o2 with
                | Some y => spec_deep_equal x y
                | None => false
                end && fields o'
            end) o1
  | _, _ => false
  end.

(** ** Rows that hold a [Date]

    [produce] drafts plain objects and arrays only.  A field holding a [Date]
    (or any other class instance) is handed to the callback as it is, so a
    method call that changes it writes to the object the caller owns.  A
    field is here plain data or a reference to a [Date] in a store that gives
    the time value of each. *)

Inductive field_value : Type :=
| Plain (v : value)
| DateRef (l : nat).

Definition LiveRow : Type := jsobj field_value.

Definition Store : Type := list Z.

Definition time_of (store : Store) (l : nat) : Z := nth l store 0%Z.

(** [date.setTime(t)] on the [Date] at [l]. *)
Fixpoint store_set (l : nat) (t : Z) (store : Store) : Store :=
  match store, l with
  | [], _ => []
  | _ :: rest, O => t :: rest
  | x :: rest, S l' => x :: store_set l' t rest
  end.

(** What a row reads as at a given moment.  The JSON text of a [Date] is its
    ISO time stamp, one for each time value; the time value stands for it. *)
Definition snapshot (store : Store) (row : LiveRow) : Row :=
  map (fun field => (fst field,
                     match snd field with
                     | Plain v => v
                     | DateRef l => VNum (time_of store l)
                     end)) row.

(** What a callback does to the draft it is given, step by step. *)
Inductive action : Type :=
| Assign (field : string) (v : value)   (* draft[field] = v *)
| Remove (field : string)               (* delete draft[field] *)
| SetTime (field : string) (t : Z).     (* draft[field].setTime(t) *)

Definition LiveCallback : Type := list action.

(** [produce(selectedRow, callback)]: assignments and deletions go to the
    draft's copy; a method call on a [Date] goes to the [Date] itself; on
    anything else [setTime] is not a function and the call throws, the writes
    made before it staying.  The store afterwards, and the row produced. *)
Fixpoint produce_live (callback : LiveCallback) (store : Store) (draft : LiveRow)
  : Store * result LiveRow :=
  match callback with
  | [] => (store, Ok draft)
  | Assign field v :: rest =>
      produce_live rest store (obj_set field (Plain v) draft)
  | Remove field :: rest => produce_live rest store (obj_delete field draft)
  | SetTime field t :: rest =>
      match obj_get field draft with
      | Some (DateRef l) => produce_live rest (store_set l t store) draft
      | _ => (store, Throw)
      end
  end.

(** One turn of the [forEach] of [modifySelectedRows] over such rows, for the
    base collection [base]: the store and the draft of the overlay
    afterwards.  The comparisons are made after the
    callback has run, on what the rows then read as; an entry of the overlay
    keeps what its row read as when it was stored. *)
Definition modify_row_live (callback : LiveCallback) (idField : string)
    (base : list LiveRow) (store : Store) (draft : ChangeState)
    (selectedRow : LiveRow) : Store * result ChangeState :=
  let g0 := initial (map (snapshot store) base) idField false in
  let id := getRowId g0 (snapshot store selectedRow) in
  let currentMod := obj_get (to_key id) draft in
  match currentMod with
  | Some ModDeleted => (store, Ok draft)
  | _ =>
      match produce_live callback store selectedRow with
      | (store', Throw) => (store', Throw)
      | (store', Ok modifiedRow) =>
          let g1 := initial (map (snapshot store') base) idField false in
          let modified := snapshot store' modifiedRow in
          match currentMod with
          | Some (ModAdded _) =>
              if negb (deepEqual (VObj (snapshot store' selectedRow)) (VObj modified))
              then (store', Ok (obj_set (to_key id) (ModAdded modified) draft))
              else (store', Ok draft)
          | _ =>
              match find_original g1 id with
              | Some originalRow =>
                  if negb (deepEqual (VObj originalRow) (VObj modified))
                  then (store', Ok (obj_set (to_key id) (ModModified modified) draft))
                  else (store', Ok (obj_delete (to_key id) draft))
              | None => (store', Ok draft)
              end
          end
      end
  end.

(** A base row with a [Date], as in [{ id: '1', joined: new Date(1000) }]. *)
Definition member : LiveRow := [("id", Plain (VStr "1")); ("joined", DateRef 0)].

(** * Properties *)

(** ** Reading an object after a write *)

Section ObjectLemmas.
Context {V : Type}.
Implicit Types (o : jsobj V) (k : string) (v : V).

Lemma obj_get_replace_eq k v o :
  obj_get k o <> None -> obj_get k (obj_replace k v o) = Some v.
Proof.
  induction o as [|[k' v'] o IH]; simpl; [congruence |].
  destruct (String.eqb k' k) eqn:E; simpl.
  - now rewrite String.eqb_refl.
  - rewrite E. exact IH.
Qed.

Lemma obj_get_replace_ne k k' v o :
  k <> k' -> obj_get k' (obj_replace k v o) = obj_get k' o.
Proof.
  intros Hne. induction o as [|[k1 v1] o IH]; simpl; [reflexivity |].
  destruct (String.eqb k1 k) eqn:E; simpl.
  - apply String.eqb_eq in E. subst k1.
    apply String.eqb_neq in Hne. now rewrite Hne.
  - now rewrite IH.
Qed.

Lemma obj_get_insert_index_eq n k v o :
  obj_get k o = None -> obj_get k (obj_insert_index n k v o) = Some v.
Proof.
  induction o as [|[k' v'] o IH]; simpl.
  - now rewrite String.eqb_refl.
  - destruct (String.eqb k' k) eqn:E; [discriminate |]. intros Hnone.
    destruct (array_index k') as [n'|]; [destruct (n <? n')%N |]; simpl;
      rewrite ?String.eqb_refl, ?E; auto.
Qed.

Lemma obj_get_insert_index_ne n k k' v o :
  k <> k' -> obj_get k' (obj_insert_index n k v o) = obj_get k' o.
Proof.
  intros Hne. pose proof Hne as Hb. apply String.eqb_neq in Hb.
  induction o as [|[k1 v1] o IH]; simpl.
  - now rewrite Hb.
  - destruct (array_index k1) as [n'|]; [destruct (n <? n')%N |]; simpl;
      rewrite ?Hb; try reflexivity.
    now rewrite IH.
Qed.

Lemma obj_get_app k o1 o2 :
  obj_get k (o1 ++ o2) =
  match obj_get k o1 with Some v => Some v | None => obj_get k o2 end.
Proof.
  induction o1 as [|[k1 v1] o1 IH]; simpl; [reflexivity |].
  now destruct (String.eqb k1 k).
Qed.

Lemma obj_get_set_eq k v o : obj_get k (obj_set k v o) = Some v.
Proof.
  unfold obj_set. destruct (obj_get k o) eqn:E.
  - apply obj_get_replace_eq. congruence.
  - destruct (array_index k).
    + now apply obj_get_insert_index_eq.
    + rewrite obj_get_app, E. simpl. now rewrite String.eqb_refl.
Qed.

Lemma obj_get_set_ne k k' v o :
  k <> k' -> obj_get k' (obj_set k v o) = obj_get k' o.
Proof.
  intros Hne. unfold obj_set. destruct (obj_get k o).
  - now apply obj_get_replace_ne.
  - destruct (array_index k).
    + now apply obj_get_insert_index_ne.
    + rewrite obj_get_app. simpl. apply String.eqb_neq in Hne. rewrite Hne.
      now destruct (obj_get k' o).
Qed.

Lemma obj_get_delete_eq k o : obj_get k (obj_delete k o) = None.
Proof.
  induction o as [|[k' v'] o IH]; simpl; [reflexivity |].
  destruct (String.eqb k' k) eqn:E; simpl; [exact IH |]. now rewrite E.
Qed.

Lemma obj_get_delete_ne k k' o :
  k <> k' -> obj_get k' (obj_delete k o) = obj_get k' o.
Proof.
  intros Hne. induction o as [|[k1 v1] o IH]; simpl; [reflexivity |].
  destruct (String.eqb k1 k) eqn:E; simpl.
  - apply String.eqb_eq in E. subst k1. apply String.eqb_neq in Hne.
    now rewrite Hne.
  - now rewrite IH.
Qed.
End ObjectLemmas.

Create Rewrite HintDb objs.
#[local] Hint Rewrite @obj_get_set_eq @obj_get_delete_eq : objs.
#[local] Hint Rewrite @obj_get_set_ne @obj_get_delete_ne using congruence : objs.

(** Decide whether two keys coincide and rewrite the reads accordingly. *)
Ltac key_cases k k' :=
  destruct (string_dec k k') as [<- | ?]; autorewrite with objs.

(** ** Facts about [deepEqual] *)

Lemma option_string_eqb_refl a : option_string_eqb a a = true.
Proof. destruct a; simpl; [apply String.eqb_refl | reflexivity]. Qed.

Lemma deepEqual_refl v : deepEqual v v = true.
Proof. apply option_string_eqb_refl. Qed.

(** ** The state components each operation touches *)

Lemma changes_updateChanges c g : changes (updateChanges c g) = c.
Proof. reflexivity. Qed.

Lemma changes_gridSelect rows g : changes (gridSelect rows g) = changes g.
Proof. unfold gridSelect. now destruct (gridApi g). Qed.

Lemma rowData_gridSelect rows g : rowData (gridSelect rows g) = rowData g.
Proof. unfold gridSelect. now destruct (gridApi g). Qed.

Lemma idField_gridSelect rows g : idField (gridSelect rows g) = idField g.
Proof. unfold gridSelect. now destruct (gridApi g). Qed.

Lemma changes_deleteSelectedRows g selectedRows :
  gridApi g = Some selectedRows ->
  changes (deleteSelectedRows g) = fold_left (delete_row g) selectedRows (changes g).
Proof.
  intros H. unfold deleteSelectedRows, deselectAll. rewrite H.
  now rewrite changes_gridSelect.
Qed.

Lemma step_rowData o g g' : step o g = Ok g' -> rowData g' = rowData g.
Proof.
  destruct o; simpl; intros H; try (injection H as <-); try reflexivity.
  - apply rowData_gridSelect.
  - unfold deleteSelectedRows, deselectAll. destruct (gridApi g); [| reflexivity].
    now rewrite rowData_gridSelect.
  - unfold modifySelectedRows in H. destruct (gridApi g) as [sel|].
    + destruct (modify_rows callback g sel (changes g)); [| discriminate].
      now injection H as <-.
    + now injection H as <-.
  - unfold onCellEditRequest. destruct field as [f|]; [| reflexivity].
    destruct (String.eqb f EmptyString); [reflexivity |].
    now destruct (obj_get _ (changes g)) as [[ | | ]|].
Qed.

Lemma step_idField o g g' : step o g = Ok g' -> idField g' = idField g.
Proof.
  destruct o; simpl; intros H; try (injection H as <-); try reflexivity.
  - apply idField_gridSelect.
  - unfold deleteSelectedRows, deselectAll. destruct (gridApi g); [| reflexivity].
    now rewrite idField_gridSelect.
  - unfold modifySelectedRows in H. destruct (gridApi g) as [sel|].
    + destruct (modify_rows callback g sel (changes g)); [| discriminate].
      now injection H as <-.
    + now injection H as <-.
  - unfold onCellEditRequest. destruct field as [f|]; [| reflexivity].
    destruct (String.eqb f EmptyString); [reflexivity |].
    now destruct (obj_get _ (changes g)) as [[ | | ]|].
Qed.

Lemma run_rowData ops : forall g, rowData (run ops g) = rowData g.
Proof.
  induction ops as [|o ops IH]; intros g; simpl; [reflexivity |].
  destruct (step o g) as [g'|] eqn:E; rewrite IH; [| reflexivity].
  now apply step_rowData with o.
Qed.

(** ** Rows holding a [Date]: C1 *)

Lemma plain_after_assign (draft : LiveRow) field v :
  (forall k l, obj_get k draft <> Some (DateRef l)) ->
  forall k l, obj_get k (obj_set field (Plain v) draft) <> Some (DateRef l).
Proof.
  intros Hplain k l. key_cases field k; [discriminate | apply Hplain].
Qed.

Lemma plain_after_remove (draft : LiveRow) field :
  (forall k l, obj_get k draft <> Some (DateRef l)) ->
  forall k l, obj_get k (obj_delete field draft) <> Some (DateRef l).
Proof.
  intros Hplain k l. key_cases field k; [discriminate | apply Hplain].
Qed.

(** On a row of plain data no callback writes anything but its draft: this
    is the ground the plain-data model above stands on. *)
Lemma produce_live_plain callback :
  forall store draft,
    (forall k l, obj_get k draft <> Some (DateRef l)) ->
    fst (produce_live callback store draft) = store.
Proof.
  induction callback as [|a rest IH]; intros store draft Hplain; [reflexivity |].
  destruct a as [field v | field | field t]; simpl.
  - apply IH. now apply plain_after_assign.
  - apply IH. now apply plain_after_remove.
  - destruct (obj_get field draft) as [[v | l]|] eqn:E; try reflexivity.
    now destruct (Hplain field l).
Qed.

(** C1, evaluated.  With the base row [{ id: '1', joined: new Date(1000) }]
    selected, [modifySelectedRows(row => { row.joined.setTime(0) })] writes
    the caller's row: the base collection reads differently afterwards, and
    the overlay records nothing (the row compares equal to itself). *)
Theorem date_written_through_callback :
  let store := [1000%Z] in
  let callback := [SetTime "joined" 0%Z] in
  modify_row_live callback "id" [member] store [] member = ([0%Z], Ok []) /\
  map (snapshot store) [member] = [[("id", VStr "1"); ("joined", VNum 1000)]] /\
  map (snapshot [0%Z]) [member] = [[("id", VStr "1"); ("joined", VNum 0)]] /\
  deepEqual (VArr (map VObj (map (snapshot store) [member])))
            (VArr (map VObj (map (snapshot [0%Z]) [member]))) = false.
Proof. repeat split. Qed.

(** ** Deleting the selection: C3 *)

Lemma delete_row_at g draft row :
  obj_get (row_key g row) (delete_row g draft row) =
  deleted_outcome (obj_get (row_key g row) draft).
Proof.
  unfold delete_row.
  destruct (obj_get (row_key g row) draft) as [[d|d|]|]; simpl;
    now autorewrite with objs.
Qed.







(** ** Modifying the selection: C9, C8, C10 *)

Lemma modify_row_other cb g draft row draft' k :
  row_key g row <> k ->
  modify_row cb g draft row = Ok draft' ->
  obj_get k draft' = obj_get k draft.
Proof.
  unfold row_key, modify_row. intros Hne H.
  destruct (obj_get (to_key (getRowId g row)) draft) as [[d|d|]|];
    try (injection H as <-; reflexivity);
    destruct (cb row) as [modifiedRow|]; try discriminate;
    repeat match type of H with
      | context [if ?b then _ else _] => destruct b
      | context [match find_original ?g ?i with _ => _ end] =>
          destruct (find_original g i)
      end;
    injection H as <-; now autorewrite with objs.
Qed.

Lemma modify_row_deleted cb g draft row :
  obj_get (row_key g row) draft = Some ModDeleted ->
  modify_row cb g draft row = Ok draft.
Proof. unfold row_key, modify_row. now intros ->. Qed.

(** What one turn leaves at the key of the row it handles. *)
Lemma modify_row_at cb g draft row modifiedRow :
  cb row = Ok modifiedRow ->
  exists draft',
    modify_row cb g draft row = Ok draft' /\
    obj_get (row_key g row) draft' =
    match obj_get (row_key g row) draft with
    | Some ModDeleted => Some ModDeleted
    | Some (ModAdded data) =>
        Some (ModAdded (if deepEqual (VObj row) (VObj modifiedRow)
                        then data else modifiedRow))
    | current =>
        match find_original g (getRowId g row) with
        | Some originalRow =>
            if deepEqual (VObj originalRow) (VObj modifiedRow) then None
            else Some (ModModified modifiedRow)
        | None => current
        end
    end.
Proof.
  intros Hcb. unfold row_key, modify_row. rewrite Hcb.
  destruct (obj_get (to_key (getRowId g row)) draft) as [[d|d|]|] eqn:E.
  - destruct (deepEqual (VObj row) (VObj modifiedRow)); simpl;
      eexists; split; try reflexivity; now autorewrite with objs.
  - destruct (find_original g (getRowId g row)) as [orig|].
    + destruct (deepEqual (VObj orig) (VObj modifiedRow)); simpl;
        eexists; split; try reflexivity; now autorewrite with objs.
    + eexists; split; [reflexivity | exact E].
  - eexists; split; [reflexivity | exact E].
  - destruct (find_original g (getRowId g row)) as [orig|].
    + destruct (deepEqual (VObj orig) (VObj modifiedRow)); simpl;
        eexists; split; try reflexivity; now autorewrite with objs.
    + eexists; split; [reflexivity | exact E].
Qed.

Lemma modify_row_keeps_deleted cb g draft row draft' k :
  obj_get k draft = Some ModDeleted ->
  modify_row cb g draft row = Ok draft' ->
  obj_get k draft' = Some ModDeleted.
Proof.
  intros Hdel H. destruct (string_dec (row_key g row) k) as [Heq | Hne].
  - subst k. rewrite modify_row_deleted in H by assumption.
    now injection H as <-.
  - now rewrite (modify_row_other _ _ _ _ _ _ Hne H).
Qed.


Lemma modify_rows_keeps_deleted cb g k selectedRows :
  forall draft draft',
    obj_get k draft = Some ModDeleted ->
    modify_rows cb g selectedRows draft = Ok draft' ->
    obj_get k draft' = Some ModDeleted.
Proof.
  induction selectedRows as [|row rest IH]; intros draft draft' Hdel H; simpl in H.
  - now injection H as <-.
  - destruct (modify_row cb g draft row) as [d1|] eqn:E; [| discriminate].
    eapply IH; [| exact H]. eapply modify_row_keeps_deleted; eauto.
Qed.


Lemma modify_rows_skip_deleted cb g k selectedRows :
  forall draft,
    obj_get k draft = Some ModDeleted ->
    modify_rows cb g selectedRows draft =
    modify_rows cb g (without_key g k selectedRows) draft.
Proof.
  induction selectedRows as [|row rest IH]; intros draft Hdel; simpl; [reflexivity |].
  destruct (String.eqb (row_key g row) k) eqn:E; simpl.
  - apply String.eqb_eq in E. subst k.
    rewrite modify_row_deleted by assumption. now apply IH.
  - destruct (modify_row cb g draft row) as [d1|] eqn:Hrow; [| reflexivity].
    apply IH. eapply modify_row_keeps_deleted; eauto.
Qed.

Lemma modifySelectedRows_changes cb g selectedRows g' :
  gridApi g = Some selectedRows ->
  modifySelectedRows cb g = Ok g' ->
  modify_rows cb g selectedRows (changes g) = Ok (changes g').
Proof.
  unfold modifySelectedRows. intros -> H.
  destruct (modify_rows cb g selectedRows (changes g)); [| discriminate].
  now injection H as <-.
Qed.

(** C9. A row whose entry is [Deleted] is skipped: [modifySelectedRows]
    gives the result of the selection without that row (so the callback is not
    run on it, and a callback that would throw on it raises nothing), the
    entry stays [Deleted] whatever the selection and the callback, and a
    cell-edit request on the row returns at once, leaving everything as it was. *)
Theorem deleted_row_not_editable :
  forall (g : Grid) (row : Row),
    obj_get (row_key g row) (changes g) = Some ModDeleted ->
    (forall cb selectedRows,
        modify_rows cb g selectedRows (changes g) =
        modify_rows cb g (without_key g (row_key g row) selectedRows) (changes g)) /\
    (forall cb,
        gridApi g = Some [row] ->
        modifySelectedRows cb g = Ok (updateChanges (changes g) g)) /\
    (forall cb selectedRows g',
        gridApi g = Some selectedRows ->
        modifySelectedRows cb g = Ok g' ->
        obj_get (row_key g row) (changes g') = Some ModDeleted) /\
    (forall field newValue, onCellEditRequest row field newValue g = g).
Proof.
  intros g row Hdel. repeat split.
  - intros cb selectedRows. now apply modify_rows_skip_deleted.
  - intros cb Hapi. unfold modifySelectedRows. rewrite Hapi. simpl.
    now rewrite modify_row_deleted.
  - intros cb selectedRows g' Hapi H.
    apply (modifySelectedRows_changes _ _ _ _ Hapi) in H.
    eapply modify_rows_keeps_deleted; eauto.
  - intros field newValue. unfold onCellEditRequest.
    destruct field as [f|]; [| reflexivity].
    destruct (String.eqb f EmptyString); [reflexivity |].
    unfold row_key in Hdel. now rewrite Hdel.
Qed.

(** Bob deleted, then selected again and handed to a callback that throws. *)
Lemma deleted_row_not_editable_witness :
  let g := gridSelect [bob] (deleteSelectedRows (gridSelect [bob] demo)) in
  obj_get "2" (changes g) = Some ModDeleted /\
  modifySelectedRows (fun _ => Throw) g = Ok (updateChanges (changes g) g) /\
  onCellEditRequest bob (Some "age") (VNum 1) g = g.
Proof.
  intros g.
  assert (Hdel : obj_get (row_key g bob) (changes g) = Some ModDeleted)
    by reflexivity.
  destruct (deleted_row_not_editable g bob Hdel) as (_ & Hsingle & _ & Hedit).
  split; [exact Hdel | split].
  - apply Hsingle. reflexivity.
  - apply Hedit.
Defined.






(** C10. A cell-edit request on a row whose identity no row of the base
    collection has, and whose entry is not [Added], leaves the overlay as it
    is: no [Modified] entry is created (there is no exception to raise: the
    handler returns the component). *)
Theorem cell_edit_unknown_row_dropped :
  forall (g : Grid) (row : Row) (field : option string) (newValue : value),
    find_original g (getRowId g row) = None ->
    (forall data, obj_get (row_key g row) (changes g) <> Some (ModAdded data)) ->
    changes (onCellEditRequest row field newValue g) = changes g.
Proof.
  intros g row field newValue Hbase Hnot. unfold onCellEditRequest.
  destruct field as [f|]; [| reflexivity].
  destruct (String.eqb f EmptyString); [reflexivity |].
  unfold row_key in Hnot. rewrite Hbase.
  destruct (obj_get (to_key (getRowId g row)) (changes g)) as [[d|d|]|] eqn:E;
    try reflexivity.
  now destruct (Hnot d).
Qed.

(** A cell edit on a row the base collection does not have. *)
Lemma cell_edit_unknown_row_dropped_witness :
  changes (onCellEditRequest rowNew (Some "age") (VNum 1) demo) = changes demo.
Proof.
  apply (cell_edit_unknown_row_dropped demo rowNew (Some "age") (VNum 1)).
  - reflexivity.
  - intros data. discriminate.
Defined.

(** ** The projected view is the base part followed by the added part *)

Lemma push_base_rows g rows :
  forall acc,
    fold_left
      (fun (result : list Row) (originalRow : Row) =>
         match obj_get (row_key g originalRow) (changes g) with
         | Some (ModModified data) => result ++ [data]
         | _ => result ++ [originalRow]
         end) rows acc
    = acc ++ map (project_row g) rows.
Proof.
  induction rows as [|r rows IH]; intros acc; simpl.
  - now rewrite app_nil_r.
  - rewrite IH. unfold project_row.
    destruct (obj_get (row_key g r) (changes g)) as [[d|d|]|];
      now rewrite <- app_assoc.
Qed.

Lemma push_added_rows (c : ChangeState) :
  forall acc,
    fold_left
      (fun (result : list Row) (entry : string * Modification) =>
         match snd entry with
         | ModAdded data => result ++ [data]
         | _ => result
         end) c acc
    = acc ++ added_rows c.
Proof.
  induction c as [|[k m] c IH]; intros acc; simpl.
  - now rewrite app_nil_r.
  - rewrite IH. destruct m; simpl; now rewrite <- ?app_assoc.
Qed.

Lemma effectiveRowData_split g :
  effectiveRowData g = map (project_row g) (rowData g) ++ added_rows (changes g).
Proof.
  unfold effectiveRowData. now rewrite push_added_rows, push_base_rows.
Qed.

Lemma added_rows_app c1 c2 : added_rows (c1 ++ c2) = added_rows c1 ++ added_rows c2.
Proof. unfold added_rows. apply flat_map_app. Qed.

(** ** Assignments and deletions keep the keys in enumeration order *)

Section KeyOrder.
Context {V : Type}.
Implicit Types (o : jsobj V) (k : string) (v : V).

Lemma keys_replace k v o : keys (obj_replace k v o) = keys o.
Proof.
  unfold keys. induction o as [|[k' v'] o IH]; simpl; [reflexivity |].
  destruct (String.eqb k' k) eqn:E; simpl.
  - apply String.eqb_eq in E. now subst.
  - now f_equal.
Qed.

Lemma in_keys_delete k o x : In x (keys (obj_delete k o)) -> In x (keys o).
Proof.
  induction o as [|[k' v'] o IH]; simpl; [tauto |].
  destruct (String.eqb k' k); simpl; tauto.
Qed.

Lemma in_keys_insert_index n k v o x :
  In x (keys (obj_insert_index n k v o)) -> x = k \/ In x (keys o).
Proof.
  induction o as [|[k' v'] o IH]; simpl; [intuition |].
  destruct (array_index k') as [n'|]; [destruct (n <? n')%N |]; simpl; intuition.
Qed.

Lemma js_ordered_delete k o : js_ordered o -> js_ordered (obj_delete k o).
Proof.
  unfold js_ordered. induction o as [|[k' v'] o IH]; simpl; [auto |].
  intros H. inversion H as [|? ? Hss Hall]; subst.
  destruct (String.eqb k' k); simpl; [auto |].
  constructor; [auto |].
  rewrite Forall_forall in *. intros x Hx. apply Hall.
  now apply in_keys_delete with k.
Qed.

Lemma js_ordered_insert_index n k v o :
  array_index k = Some n -> js_ordered o -> js_ordered (obj_insert_index n k v o).
Proof.
  unfold js_ordered. intros Hk.
  induction o as [|[k' v'] o IH]; simpl; intros H.
  - repeat constructor.
  - inversion H as [|? ? Hss Hall]; subst. rewrite Forall_forall in Hall.
    destruct (array_index k') as [n'|] eqn:Hk'.
    + destruct (n <? n')%N eqn:Hlt; simpl.
      * apply N.ltb_lt in Hlt. constructor; [exact H |].
        constructor.
        -- unfold key_le. rewrite Hk, Hk'. lia.
        -- rewrite Forall_forall. intros x Hx. specialize (Hall x Hx).
           unfold key_le in *. rewrite Hk. rewrite Hk' in Hall.
           destruct (array_index x); [lia | exact I].
      * apply N.ltb_ge in Hlt. constructor; [auto |].
        rewrite Forall_forall. intros x Hx.
        apply in_keys_insert_index in Hx. destruct Hx as [-> | Hx]; [| auto].
        unfold key_le. now rewrite Hk, Hk'.
    + simpl. constructor; [exact H |]. constructor.
      * unfold key_le. now rewrite Hk, Hk'.
      * rewrite Forall_forall. intros x Hx. specialize (Hall x Hx).
        unfold key_le in *. rewrite Hk. rewrite Hk' in Hall.
        destruct (array_index x); [contradiction | exact I].
Qed.

Lemma js_ordered_push k v o :
  array_index k = None -> js_ordered o -> js_ordered (o ++ [(k, v)]).
Proof.
  unfold js_ordered, keys. intros Hk.
  induction o as [|[k' v'] o IH]; simpl; intros H.
  - repeat constructor.
  - inversion H as [|? ? Hss Hall]; subst. constructor; [auto |].
    rewrite map_app, Forall_app. split; [exact Hall |].
    constructor; [| constructor].
    unfold key_le. simpl. rewrite Hk.
    now destruct (array_index k').
Qed.

Lemma js_ordered_set k v o : js_ordered o -> js_ordered (obj_set k v o).
Proof.
  intros H. unfold obj_set. destruct (obj_get k o).
  - unfold js_ordered. now rewrite keys_replace.
  - destruct (array_index k) eqn:Hk.
    + now apply js_ordered_insert_index.
    + now apply js_ordered_push.
Qed.
End KeyOrder.

(** ** Every operation is a series of writes *)

Lemma writes_trans g a b c : writes g a b -> writes g b c -> writes g a c.
Proof.
  induction 1; intros Hbc; auto.
  - eapply writes_set; eauto.
  - eapply writes_delete; eauto.
  - eapply writes_clear; eauto.
Qed.

Lemma writes_set1 g k m c : tracked_ok g k m -> writes g c (obj_set k m c).
Proof. intros H. eapply writes_set; [exact H | apply writes_done]. Qed.

Lemma writes_delete1 g k c : writes g c (obj_delete k c).
Proof. eapply writes_delete. apply writes_done. Qed.

Lemma delete_row_writes g draft row : writes g draft (delete_row g draft row).
Proof.
  unfold delete_row. destruct (obj_get (row_key g row) draft) as [[d|d|]|];
    (apply writes_delete1 || (apply writes_set1; exact I)).
Qed.

Lemma delete_rows_writes g selectedRows :
  forall draft, writes g draft (fold_left (delete_row g) selectedRows draft).
Proof.
  induction selectedRows as [|row rest IH]; intros draft; simpl.
  - apply writes_done.
  - eapply writes_trans; [apply delete_row_writes | apply IH].
Qed.

Lemma modify_row_writes cb g draft row draft' :
  modify_row cb g draft row = Ok draft' -> writes g draft draft'.
Proof.
  unfold modify_row. intros H.
  destruct (obj_get (to_key (getRowId g row)) draft) as [[d|d|]|];
    try (injection H as <-; apply writes_done);
    destruct (cb row) as [modifiedRow|]; try discriminate.
  - destruct (negb _); injection H as <-;
      [apply writes_set1; exact I | apply writes_done].
  - destruct (find_original g (getRowId g row)) as [orig|] eqn:Hfind.
    + destruct (deepEqual (VObj orig) (VObj modifiedRow)) eqn:E; simpl in H;
        injection H as <-; [apply writes_delete1 |].
      apply writes_set1. simpl. eauto.
    + injection H as <-. apply writes_done.
  - destruct (find_original g (getRowId g row)) as [orig|] eqn:Hfind.
    + destruct (deepEqual (VObj orig) (VObj modifiedRow)) eqn:E; simpl in H;
        injection H as <-; [apply writes_delete1 |].
      apply writes_set1. simpl. eauto.
    + injection H as <-. apply writes_done.
Qed.

Lemma modify_rows_writes cb g selectedRows :
  forall draft draft',
    modify_rows cb g selectedRows draft = Ok draft' -> writes g draft draft'.
Proof.
  induction selectedRows as [|row rest IH]; intros draft draft' H; simpl in H.
  - injection H as <-. apply writes_done.
  - destruct (modify_row cb g draft row) as [d1|] eqn:E; [| discriminate].
    eapply writes_trans; [eapply modify_row_writes; eauto | eapply IH; eauto].
Qed.

Lemma step_writes o g g' : step o g = Ok g' -> writes g (changes g) (changes g').
Proof.
  destruct o; simpl; intros H; try (injection H as <-).
  - apply writes_done.
  - rewrite changes_gridSelect. apply writes_done.
  - apply writes_set1. exact I.
  - unfold deleteSelectedRows, deselectAll.
    destruct (gridApi g) as [sel|]; [| apply writes_done].
    rewrite changes_gridSelect. apply delete_rows_writes.
  - unfold modifySelectedRows in H. destruct (gridApi g) as [sel|].
    + destruct (modify_rows callback g sel (changes g)) as [d|] eqn:E;
        [| discriminate].
      injection H as <-. eapply modify_rows_writes; eauto.
    + injection H as <-. apply writes_done.
  - unfold onCellEditRequest. destruct field as [f|]; [| apply writes_done].
    destruct (String.eqb f EmptyString); [apply writes_done |].
    destruct (obj_get (to_key (getRowId g row)) (changes g)) as [[d|d|]|];
      try apply writes_done; simpl;
      try (apply writes_set1; exact I);
      (destruct (find_original g (getRowId g row)) as [orig|] eqn:Hfind;
       [| apply writes_done]);
      (destruct (deepEqual (VObj orig) (VObj (obj_set f newValue row))) eqn:E;
       simpl; [apply writes_delete1 | apply writes_set1; simpl; eauto]).
  - apply writes_delete1.
  - apply writes_clear, writes_done.
Qed.

Lemma writes_js_ordered g c c' : writes g c c' -> js_ordered c -> js_ordered c'.
Proof.
  induction 1; intros Hord; auto.
  - apply IHwrites. now apply js_ordered_set.
  - apply IHwrites. now apply js_ordered_delete.
  - apply IHwrites. constructor.
Qed.

Lemma writes_modified_distinct g c c' :
  writes g c c' -> modified_distinct g c -> modified_distinct g c'.
Proof.
  induction 1 as [c | k m c c' Hok _ IH | k c c' _ IH | c c' _ IH];
    intros Hinv; auto; apply IH; intros k' data.
  - key_cases k k'.
    + intros [= ->]. exact Hok.
    + apply Hinv.
  - key_cases k k'; [discriminate | apply Hinv].
  - discriminate.
Qed.

Lemma find_original_same g g' id :
  rowData g' = rowData g -> idField g' = idField g ->
  find_original g' id = find_original g id.
Proof. unfold find_original, getRowId. now intros -> ->. Qed.

Lemma modified_distinct_same g g' c :
  rowData g' = rowData g -> idField g' = idField g ->
  modified_distinct g c -> modified_distinct g' c.
Proof.
  intros Hr Hi H k data Hget. destruct (H k data Hget) as (id & orig & ? & ? & ?).
  exists id, orig. now rewrite (find_original_same g g' id Hr Hi).
Qed.

Lemma run_invariants ops :
  forall g,
    js_ordered (changes g) -> modified_distinct g (changes g) ->
    js_ordered (changes (run ops g)) /\
    modified_distinct (run ops g) (changes (run ops g)).
Proof.
  induction ops as [|o ops IH]; intros g Hord Hinv; simpl; [now split |].
  destruct (step o g) as [g'|] eqn:E; [| now apply IH].
  pose proof (step_writes o g g' E) as Hw. apply IH.
  - eapply writes_js_ordered; eauto.
  - apply modified_distinct_same with g;
      [eapply step_rowData | eapply step_idField |
       eapply writes_modified_distinct]; eauto.
Qed.

Lemma reachable_invariants rows field g :
  reachable rows field g ->
  js_ordered (changes g) /\ modified_distinct g (changes g).
Proof.
  intros (notify & ops & ->). apply run_invariants.
  - constructor.
  - intros k data Hget. discriminate.
Qed.

(** ** Small facts used below *)

Lemma strict_eq_eq a b : strict_eq a b = true -> a = b.
Proof.
  destruct a, b; simpl; try discriminate; intros H; try reflexivity.
  - apply Bool.eqb_prop in H. now subst.
  - apply Z.eqb_eq in H. now subst.
  - apply String.eqb_eq in H. now subst.
Qed.

Lemma find_original_sound g id originalRow :
  find_original g id = Some originalRow ->
  In originalRow (rowData g) /\ getRowId g originalRow = id.
Proof.
  unfold find_original. intros H. apply find_some in H. destruct H as [Hin Heq].
  split; [exact Hin | now apply strict_eq_eq].
Qed.

Lemma modify_row_same cb g g' draft row :
  rowData g' = rowData g -> idField g' = idField g ->
  modify_row cb g' draft row = modify_row cb g draft row.
Proof.
  intros Hr Hi. unfold modify_row.
  replace (getRowId g' row) with (getRowId g row)
    by (unfold getRowId; now rewrite Hi).
  now rewrite (find_original_same g g' _ Hr Hi).
Qed.

(** The overlay after one call of [modifySelectedRows] on the single row
    [row], then shown with another row selected. *)
Lemma modifySelectedRows_single cb g row draft' :
  gridApi g = Some [row] ->
  modify_row cb g (changes g) row = Ok draft' ->
  modifySelectedRows cb g = Ok (updateChanges draft' g).
Proof.
  intros Hapi H. unfold modifySelectedRows. rewrite Hapi. simpl. now rewrite H.
Qed.

Lemma gridApi_gridSelect rows g :
  gridApi g <> None -> gridApi (gridSelect rows g) = Some rows.
Proof. unfold gridSelect. destruct (gridApi g); [reflexivity | congruence]. Qed.

(** ** The view: C4 *)

(** C4, evaluated.  Rows are added as ['10'] and then ['4']; the view shows
    ['4'] before ['10']: the row added last is not at the end of the grid. *)
Theorem added_rows_not_in_insertion_order :
  let g1 := addRow row10 demo in
  let g := addRow row4 g1 in
  effectiveRowData g1 = [alice; bob; row10] /\
  keys (changes g) = ["4"; "10"] /\
  effectiveRowData g = [alice; bob; row4; row10] /\
  effectiveRowData g <> [alice; bob; row10; row4] /\
  last (effectiveRowData g) [] = row10.
Proof. repeat split. discriminate. Qed.

(** ** Degenerate entries: C7 *)

(** C7 (as the code has it). In every reachable overlay a [Modified] entry
    sits at the identity of a base row from which the code's comparison tells
    its data apart: the data is never that base row unchanged, and it is not
    deep-equal to it wherever the code's comparison and deep equality agree
    on the two.  [Deleted] entries carry no data.  [Added] entries are stored
    as given, without comparison to the base collection. *)
Theorem modified_entries_differ_from_base :
  forall rows field (g : Grid),
    reachable rows field g ->
    forall k data,
      obj_get k (changes g) = Some (ModModified data) ->
      exists id originalRow,
        to_key id = k /\
        find_original g id = Some originalRow /\
        deepEqual (VObj originalRow) (VObj data) = false /\
        data <> originalRow /\
        (deepEqual (VObj originalRow) (VObj data) =
           spec_deep_equal (VObj originalRow) (VObj data) ->
         spec_deep_equal (VObj originalRow) (VObj data) = false).
Proof.
  intros rows field g Hreach k data Hget.
  destruct (proj2 (reachable_invariants rows field g Hreach) k data Hget)
    as (id & orig & Hkey & Hfind & Hdiff).
  exists id, orig. repeat split; auto.
  - intros ->. rewrite deepEqual_refl in Hdiff. discriminate.
  - intros <-. exact Hdiff.
Qed.

Lemma modified_entries_differ_from_base_witness :
  exists id originalRow,
    to_key id = "1" /\
    find_original
      (run [OpGridReady; OpSelect [alice];
            OpModifySelectedRows (setField "age" (VNum 99))]
           (initial [alice; bob] "id" true)) id = Some originalRow /\
    deepEqual (VObj originalRow) (VObj aliceOlder) = false /\
    aliceOlder <> originalRow /\
    (deepEqual (VObj originalRow) (VObj aliceOlder) =
       spec_deep_equal (VObj originalRow) (VObj aliceOlder) ->
     spec_deep_equal (VObj originalRow) (VObj aliceOlder) = false).
Proof.
  apply (modified_entries_differ_from_base [alice; bob] "id"
           (run [OpGridReady; OpSelect [alice];
                 OpModifySelectedRows (setField "age" (VNum 99))]
                (initial [alice; bob] "id" true))).
  - exists true. eexists. reflexivity.
  - reflexivity.
Defined.

(** [addRow] of a row deep-equal to a base row leaves an entry for it. *)
Lemma addRow_keeps_entry_equal_to_base :
  let g := addRow alice demo in
  reachable [alice; bob] "id" g /\
  obj_get "1" (changes g) = Some (ModAdded alice) /\
  find_original g (VStr "1") = Some alice /\
  deepEqual (VObj alice) (VObj alice) = true /\
  spec_deep_equal (VObj alice) (VObj alice) = true.
Proof.
  repeat split. exists true, [OpGridReady; OpAddRow alice]. reflexivity.
Qed.

(** ** Rows without identity: C6 *)

Lemma added_entry_shown (c : ChangeState) k data :
  obj_get k c = Some (ModAdded data) -> In data (added_rows c).
Proof.
  induction c as [|[k' m] c IH]; simpl; [discriminate |].
  destruct (String.eqb k' k).
  - intros [= ->]. simpl. now left.
  - intros H. apply in_or_app. right. now apply IH.
Qed.

(** C6 (as the code has it). A row whose identity field is absent (or holds
    [undefined]) is not rejected by any edit operation: each takes
    [undefined] as the identity and works under the key ["undefined"].
    [addRow] stores the row there as [Added], and the view shows it, with the
    state [Added]; a cell edit or [modifySelectedRows] on it then updates
    that entry; deleting it, or its Undo button, removes the entry. *)
Theorem addRow_without_identity :
  forall (g : Grid) (row : Row),
    getRowId g row = VUndefined ->
    let g1 := addRow row g in
    let selected := gridSelect [row] (onGridReady g1) in
    obj_get "undefined" (changes g1) = Some (ModAdded row) /\
    In row (effectiveRowData g1) /\
    getRowModificationState g1 row = Some Added /\
    (forall field newValue,
        field <> EmptyString ->
        obj_get "undefined"
                (changes (onCellEditRequest row (Some field) newValue g1)) =
        Some (ModAdded (obj_set field newValue row))) /\
    (forall cb updated,
        cb row = Ok updated ->
        exists g2,
          modifySelectedRows cb selected = Ok g2 /\
          obj_get "undefined" (changes g2) =
          Some (ModAdded (if deepEqual (VObj row) (VObj updated)
                          then row else updated))) /\
    obj_get "undefined" (changes (deleteSelectedRows selected)) = None /\
    obj_get "undefined" (changes (undoRow row g1)) = None.
Proof.
  intros g row Hid g1 selected.
  assert (Hkey : row_key g row = "undefined") by (unfold row_key; now rewrite Hid).
  assert (Hadd : obj_get "undefined" (changes g1) = Some (ModAdded row)).
  { unfold g1, addRow. rewrite changes_updateChanges, Hkey. apply obj_get_set_eq. }
  assert (Hkey1 : row_key g1 row = "undefined") by exact Hkey.
  assert (Hkey2 : row_key selected row = "undefined") by exact Hkey.
  assert (Hsel : changes selected = changes g1) by reflexivity.
  split; [exact Hadd | split; [| split; [| split; [| split; [| split]]]]].
  - rewrite effectiveRowData_split. apply in_or_app. right.
    now apply added_entry_shown with "undefined".
  - unfold getRowModificationState. now rewrite Hkey1, Hadd.
  - intros field newValue Hfield. unfold onCellEditRequest.
    apply String.eqb_neq in Hfield. rewrite Hfield.
    fold (row_key g1 row). rewrite Hkey1, Hadd. simpl. apply obj_get_set_eq.
  - intros cb updated Hcb.
    destruct (modify_row_at cb selected (changes selected) row updated Hcb)
      as (d1 & Hrow & Hget).
    rewrite Hkey2, Hsel, Hadd in Hget.
    exists (updateChanges d1 selected). split; [| exact Hget].
    apply (modifySelectedRows_single cb selected row d1); [reflexivity | exact Hrow].
  - rewrite (changes_deleteSelectedRows selected [row] eq_refl).
    cbn [fold_left].
    pose proof (delete_row_at selected (changes selected) row) as Hdel.
    rewrite Hkey2, Hsel, Hadd in Hdel. rewrite Hsel. exact Hdel.
  - unfold undoRow. rewrite changes_updateChanges, Hkey1. apply obj_get_delete_eq.
Qed.

Lemma addRow_without_identity_witness :
  let g1 := addRow rowNoId demo in
  obj_get "undefined" (changes g1) = Some (ModAdded rowNoId) /\
  In rowNoId (effectiveRowData g1) /\
  getRowModificationState g1 rowNoId = Some Added /\
  obj_get "undefined"
          (changes (onCellEditRequest rowNoId (Some "age") (VNum 41) g1)) =
    Some (ModAdded (obj_set "age" (VNum 41) rowNoId)) /\
  obj_get "undefined"
          (changes (deleteSelectedRows (gridSelect [rowNoId] (onGridReady g1)))) = None.
Proof.
  intros g1.
  destruct (addRow_without_identity demo rowNoId eq_refl)
    as (Hadd & Hview & Hstate & Hedit & _ & Hdel & _).
  split; [exact Hadd | split; [exact Hview | split; [exact Hstate |]]].
  split; [apply Hedit; discriminate | exact Hdel].
Defined.

Lemma row_without_identity_is_tracked :
  obj_get "id" rowNoId = None /\
  run [OpAddRow rowNoId] demo = addRow rowNoId demo /\
  changes (addRow rowNoId demo) = [("undefined", ModAdded rowNoId)] /\
  effectiveRowData (addRow rowNoId demo) = [alice; bob; rowNoId].
Proof. repeat split. Qed.

(** ** [deepEqual] and field order: C5 *)

(** C5, evaluated.  Two rows with the same fields in another order are judged
    different, and two rows that differ in a field holding [undefined] are
    judged equal: the comparison is that of the serialised texts. *)
Theorem deepEqual_not_structural :
  deepEqual (VObj [("id", VStr "1"); ("age", VNum 28)])
            (VObj [("age", VNum 28); ("id", VStr "1")]) = false /\
  deepEqual (VObj [("id", VStr "1"); ("age", VNum 28); ("note", VUndefined)])
            (VObj [("id", VStr "1"); ("age", VNum 28)]) = true /\
  (forall v : value, deepEqual v v = true).
Proof. repeat split. apply deepEqual_refl. Qed.

(** ** Reverting an edit: C2 *)

(** C2 (as the code has it). Take a base row's identity (not ["__proto__"])
    whose entry is absent or [Modified], a callback [f] that keeps the
    identity field and whose result [changed] is not deep-equal to the base
    row, and a callback [f_inverse] whose result on [changed] is deep-equal
    to the base row, the code's comparison judging both pairs as deep
    equality does.  Then [modifySelectedRows(f)] on the row stores
    [Modified changed], the view shows [changed], and
    [modifySelectedRows(f_inverse)] on that shown row leaves no entry at the
    identity.  The same holds for the pair of cell-edit requests setting a
    field and setting it back. *)
Theorem round_trip_revert :
  forall (g : Grid) (row originalRow : Row),
    find_original g (getRowId g row) = Some originalRow ->
    (forall data, obj_get (row_key g row) (changes g) <> Some (ModAdded data)) ->
    obj_get (row_key g row) (changes g) <> Some ModDeleted ->
    draft_key (row_key g row) ->
    (forall (f f_inverse : Callback) (changed restored : Row),
        gridApi g = Some [row] ->
        f row = Ok changed ->
        getRowId g changed = getRowId g row ->
        spec_deep_equal (VObj originalRow) (VObj changed) = false ->
        deepEqual (VObj originalRow) (VObj changed) = false ->
        f_inverse changed = Ok restored ->
        spec_deep_equal (VObj originalRow) (VObj restored) = true ->
        deepEqual (VObj originalRow) (VObj restored) = true ->
        exists g1 g2,
          modifySelectedRows f g = Ok g1 /\
          obj_get (row_key g row) (changes g1) = Some (ModModified changed) /\
          In changed (effectiveRowData g1) /\
          modifySelectedRows f_inverse (gridSelect [changed] g1) = Ok g2 /\
          obj_get (row_key g row) (changes g2) = None) /\
    (forall (field : string) (v1 v0 : value),
        field <> EmptyString ->
        let changed := obj_set field v1 row in
        getRowId g changed = getRowId g row ->
        spec_deep_equal (VObj originalRow) (VObj changed) = false ->
        deepEqual (VObj originalRow) (VObj changed) = false ->
        spec_deep_equal (VObj originalRow) (VObj (obj_set field v0 changed)) = true ->
        deepEqual (VObj originalRow) (VObj (obj_set field v0 changed)) = true ->
        let g1 := onCellEditRequest row (Some field) v1 g in
        obj_get (row_key g row) (changes g1) = Some (ModModified changed) /\
        obj_get (row_key g row)
                (changes (onCellEditRequest changed (Some field) v0 g1)) = None).
Proof.
  intros g row originalRow Hbase Hnot_added Hnot_deleted _. split.
  - intros f f_inverse changed restored Hapi Hf Hid _ Hdiff Hinv _ Hsame.
    destruct (modify_row_at f g (changes g) row changed Hf) as (d1 & Hrow1 & Hget1).
    rewrite Hbase, Hdiff in Hget1.
    assert (Hmod : obj_get (row_key g row) d1 = Some (ModModified changed)).
    { rewrite Hget1.
      destruct (obj_get (row_key g row) (changes g)) as [[d|d|]|];
        try reflexivity; [now destruct (Hnot_added d) | now destruct Hnot_deleted]. }
    set (g1 := updateChanges d1 g).
    set (g1' := gridSelect [changed] g1).
    assert (Hkey : row_key g changed = row_key g row)
      by (unfold row_key; now rewrite Hid).
    destruct (modify_row_at f_inverse g d1 changed restored Hinv)
      as (d2 & Hrow2 & Hget2).
    rewrite Hkey, Hmod, Hid, Hbase, Hsame in Hget2.
    exists g1, (updateChanges d2 g1'). repeat split.
    + exact (modifySelectedRows_single f g row d1 Hapi Hrow1).
    + exact Hmod.
    + rewrite effectiveRowData_split. apply in_or_app. left.
      destruct (find_original_sound g _ _ Hbase) as [Hin Hoid].
      apply in_map_iff. exists originalRow. split; [| exact Hin].
      unfold project_row. change (row_key g1 originalRow) with (row_key g originalRow).
      unfold row_key at 1. rewrite Hoid. fold (row_key g row).
      change (changes g1) with d1. now rewrite Hmod.
    + apply (modifySelectedRows_single f_inverse g1' changed d2).
      * apply gridApi_gridSelect. change (gridApi g1) with (gridApi g). congruence.
      * unfold g1'. rewrite changes_gridSelect. change (changes g1) with d1.
        rewrite <- Hrow2. apply modify_row_same.
        -- now rewrite rowData_gridSelect.
        -- now rewrite idField_gridSelect.
    + rewrite changes_updateChanges. exact Hget2.
  - intros field v1 v0 Hfield changed Hid _ Hdiff _ Hsame g1.
    apply String.eqb_neq in Hfield.
    assert (Hg1 : g1 = updateChanges
                         (obj_set (row_key g row) (ModModified changed) (changes g)) g).
    { unfold g1, onCellEditRequest, row_key in *. rewrite Hfield.
      destruct (obj_get (to_key (getRowId g row)) (changes g)) as [[d|d|]|];
        [now destruct (Hnot_added d) | | now destruct Hnot_deleted |];
        rewrite Hbase; fold changed; now rewrite Hdiff. }
    split.
    + rewrite Hg1, changes_updateChanges. apply obj_get_set_eq.
    + rewrite Hg1. unfold onCellEditRequest. rewrite Hfield.
      change (getRowId (updateChanges _ g) changed) with (getRowId g changed).
      rewrite Hid, changes_updateChanges. fold (row_key g row).
      rewrite obj_get_set_eq.
      rewrite (find_original_same g (updateChanges _ g)) by reflexivity.
      rewrite Hbase, Hsame. simpl.
      apply obj_get_delete_eq.
Qed.

(** The scenario of the test suite: age 28 -> 99 -> 28. *)
Lemma round_trip_revert_witness :
  let g := gridSelect [alice] demo in
  (exists g1 g2,
      modifySelectedRows (setField "age" (VNum 99)) g = Ok g1 /\
      obj_get "1" (changes g1) = Some (ModModified aliceOlder) /\
      In aliceOlder (effectiveRowData g1) /\
      modifySelectedRows (setField "age" (VNum 28)) (gridSelect [aliceOlder] g1)
        = Ok g2 /\
      obj_get "1" (changes g2) = None) /\
  obj_get "1"
    (changes (onCellEditRequest aliceOlder (Some "age") (VNum 28)
                (onCellEditRequest alice (Some "age") (VNum 99) g))) = None.
Proof.
  intros g.
  assert (Hbase : find_original g (getRowId g alice) = Some alice) by reflexivity.
  assert (Hadd : forall data,
             obj_get (row_key g alice) (changes g) <> Some (ModAdded data))
    by (intros data; discriminate).
  assert (Hdel : obj_get (row_key g alice) (changes g) <> Some ModDeleted)
    by discriminate.
  assert (Hkey : draft_key (row_key g alice)) by discriminate.
  destruct (round_trip_revert g alice alice Hbase Hadd Hdel Hkey)
    as [Hmodify Hedit].
  split.
  - apply (Hmodify (setField "age" (VNum 99)) (setField "age" (VNum 28))
             aliceOlder aliceBack); reflexivity.
  - apply (Hedit "age" (VNum 99) (VNum 28)); [discriminate | reflexivity ..].
Defined.

(** [r => { r.id = '9' }] and [r => { r.id = '1' }] undo one another on
    Alice's row, yet the entry stays: after the first call the row shown has
    identity ['9'], which no base row has, so the second call (on the shown
    row, the only one it can be given) finds no original row and writes
    nothing.  Selecting nothing changes nothing either. *)
Lemma identity_change_is_not_reverted :
  let f := setField "id" (VStr "9") in
  let f_inverse := setField "id" (VStr "1") in
  let g := gridSelect [alice] demo in
  let shown : Row := [("id", VStr "9"); ("name", VStr "Alice"); ("age", VNum 28)] in
  let g1 := run [OpModifySelectedRows f] g in
  let g2 := run [OpSelect [shown]; OpModifySelectedRows f_inverse] g1 in
  let g2' := run [OpSelect []; OpModifySelectedRows f_inverse] g1 in
  f alice = Ok shown /\ f_inverse shown = Ok alice /\
  deepEqual (VObj alice) (VObj alice) = true /\
  spec_deep_equal (VObj alice) (VObj alice) = true /\
  changes g = [] /\
  changes g1 = [("1", ModModified shown)] /\
  effectiveRowData g1 = [shown; bob] /\
  changes g2 = [("1", ModModified shown)] /\
  changes g2' = [("1", ModModified shown)] /\
  obj_get "1" (changes g2) <> None.
Proof. repeat split. discriminate. Qed.

(** * Further properties of the component *)

(** ** Writing and deleting again *)

Section ObjectRoundTrips.
Context {V : Type}.
Implicit Types (o : jsobj V) (k : string) (v : V).

Lemma obj_get_none_keys k o : obj_get k o = None <-> ~ In k (keys o).
Proof.
  unfold keys. induction o as [|[k' v'] o IH]; simpl; [tauto |].
  destruct (String.eqb k' k) eqn:E.
  - apply String.eqb_eq in E. split; [discriminate | tauto].
  - apply String.eqb_neq in E. tauto.
Qed.

Lemma obj_delete_absent k o : obj_get k o = None -> obj_delete k o = o.
Proof.
  induction o as [|[k' v'] o IH]; simpl; [reflexivity |].
  destruct (String.eqb k' k); [discriminate |]. intros H. now rewrite IH.
Qed.

Lemma obj_delete_insert_index n k v o :
  obj_get k o = None -> obj_delete k (obj_insert_index n k v o) = o.
Proof.
  induction o as [|[k' v'] o IH]; simpl.
  - intros _. now rewrite String.eqb_refl.
  - destruct (String.eqb k' k) eqn:E; [discriminate |]. intros Hnone.
    destruct (array_index k') as [n'|]; [destruct (n <? n')%N |]; simpl;
      rewrite ?String.eqb_refl, ?E; try (now rewrite (obj_delete_absent k o));
      now rewrite IH.
Qed.

Lemma obj_delete_push k v o :
  obj_get k o = None -> obj_delete k (o ++ [(k, v)]) = o.
Proof.
  induction o as [|[k' v'] o IH]; simpl.
  - intros _. now rewrite String.eqb_refl.
  - destruct (String.eqb k' k); [discriminate |]. intros H. now rewrite IH.
Qed.

(** A property created and deleted again leaves the object as it was, order
    of the keys included. *)
Lemma obj_delete_set_fresh k v o :
  obj_get k o = None -> obj_delete k (obj_set k v o) = o.
Proof.
  intros H. unfold obj_set. rewrite H. destruct (array_index k).
  - now apply obj_delete_insert_index.
  - now apply obj_delete_push.
Qed.

Lemma obj_replace_same k v o : obj_get k o = Some v -> obj_replace k v o = o.
Proof.
  induction o as [|[k' v'] o IH]; simpl; [reflexivity |].
  destruct (String.eqb k' k) eqn:E.
  - apply String.eqb_eq in E. intros [= ->]. now subst.
  - intros H. now rewrite IH.
Qed.

Lemma obj_replace_replace k v v' o :
  obj_replace k v (obj_replace k v' o) = obj_replace k v o.
Proof.
  induction o as [|[k' v0] o IH]; simpl; [reflexivity |].
  destruct (String.eqb k' k) eqn:E; simpl.
  - now rewrite String.eqb_refl.
  - now rewrite E, IH.
Qed.

(** Assigning a property and then its former value gives the object back. *)
Lemma obj_set_set_back k v v' o :
  obj_get k o = Some v -> obj_set k v (obj_set k v' o) = o.
Proof.
  intros H. unfold obj_set at 2. rewrite H.
  unfold obj_set. rewrite obj_get_replace_eq by congruence.
  rewrite obj_replace_replace. now apply obj_replace_same.
Qed.
End ObjectRoundTrips.

Lemma effectiveRowData_ext g g' :
  rowData g' = rowData g -> idField g' = idField g -> changes g' = changes g ->
  effectiveRowData g' = effectiveRowData g.
Proof.
  intros Hr Hi Hc. unfold effectiveRowData, row_key, getRowId.
  now rewrite Hr, Hi, Hc.
Qed.

(** ** Undo *)

(** X1. Adding a row under an identity the overlay does not track and then
    pressing its Undo button gives back the overlay exactly as it was (the
    order of its keys included), and with it the view. *)
Theorem undoRow_after_addRow :
  forall (g : Grid) (row : Row),
    obj_get (row_key g row) (changes g) = None ->
    changes (undoRow row (addRow row g)) = changes g /\
    effectiveRowData (undoRow row (addRow row g)) = effectiveRowData g.
Proof.
  intros g row Hfresh.
  assert (Hc : changes (undoRow row (addRow row g)) = changes g).
  { unfold undoRow, addRow. rewrite !changes_updateChanges.
    change (row_key (updateChanges _ g) row) with (row_key g row).
    now apply obj_delete_set_fresh. }
  split; [exact Hc |]. now apply effectiveRowData_ext.
Qed.

Lemma undoRow_after_addRow_witness :
  changes (undoRow rowNew (addRow rowNew (addRow row4 demo))) =
    changes (addRow row4 demo) /\
  effectiveRowData (undoRow rowNew (addRow rowNew (addRow row4 demo))) =
    effectiveRowData (addRow row4 demo).
Proof. apply (undoRow_after_addRow (addRow row4 demo) rowNew). reflexivity. Defined.

(** X2. For a row the overlay does not track, one change followed by Undo on
    the row then shown gives the overlay back exactly: deleting it as the
    only selected row, a cell edit, or [modifySelectedRows] on it alone, as
    long as the edit or the callback leaves the identity field as it is. *)
Theorem undoRow_after_change :
  forall (g : Grid) (row : Row),
    obj_get (row_key g row) (changes g) = None ->
    (gridApi g = Some [row] ->
       changes (undoRow row (deleteSelectedRows g)) = changes g) /\
    (forall field newValue,
        getRowId g (obj_set field newValue row) = getRowId g row ->
        changes (undoRow (obj_set field newValue row)
                   (onCellEditRequest row (Some field) newValue g)) = changes g) /\
    (forall cb updated,
        gridApi g = Some [row] ->
        cb row = Ok updated ->
        getRowId g updated = getRowId g row ->
        exists g1,
          modifySelectedRows cb g = Ok g1 /\
          changes (undoRow updated g1) = changes g).
Proof.
  intros g row Hfresh. split; [| split].
  - intros Hapi. unfold undoRow.
    change (row_key (deleteSelectedRows g) row) with
      (to_key (match obj_get (idField (deleteSelectedRows g)) row with
               | Some v => v | None => VUndefined end)).
    rewrite changes_updateChanges.
    rewrite (step_idField OpDeleteSelectedRows g _ eq_refl).
    fold (getRowId g row). fold (row_key g row).
    rewrite (changes_deleteSelectedRows g [row] Hapi). simpl.
    unfold delete_row. rewrite Hfresh. now apply obj_delete_set_fresh.
  - intros field newValue Hid.
    set (g1 := onCellEditRequest row (Some field) newValue g).
    assert (Hk : row_key g1 (obj_set field newValue row) = row_key g row).
    { unfold row_key, getRowId.
      rewrite (step_idField (OpCellEditRequest row (Some field) newValue) g g1 eq_refl).
      fold (getRowId g (obj_set field newValue row)). now rewrite Hid. }
    unfold undoRow. rewrite changes_updateChanges, Hk.
    unfold g1, onCellEditRequest, row_key in *.
    destruct (String.eqb field EmptyString); [now apply obj_delete_absent |].
    rewrite Hfresh.
    destruct (find_original g (getRowId g row)) as [orig|].
    + destruct (deepEqual (VObj orig) (VObj (obj_set field newValue row)));
        simpl.
      * rewrite (obj_delete_absent _ _ Hfresh). now apply obj_delete_absent.
      * now apply obj_delete_set_fresh.
    + simpl. now apply obj_delete_absent.
  - intros cb updated Hapi Hcb Hid.
    destruct (modify_row_at cb g (changes g) row updated Hcb) as (d1 & Hrow & _).
    exists (updateChanges d1 g). split.
    + exact (modifySelectedRows_single cb g row d1 Hapi Hrow).
    + unfold undoRow. rewrite !changes_updateChanges.
      change (row_key (updateChanges d1 g) updated) with (row_key g updated).
      unfold row_key. rewrite Hid. fold (row_key g row).
      unfold modify_row in Hrow. fold (row_key g row) in Hrow.
      rewrite Hfresh, Hcb in Hrow.
      destruct (find_original g (getRowId g row)) as [orig|].
      * destruct (deepEqual (VObj orig) (VObj updated)); simpl in Hrow;
          injection Hrow as <-.
        -- rewrite (obj_delete_absent _ _ Hfresh). now apply obj_delete_absent.
        -- now apply obj_delete_set_fresh.
      * injection Hrow as <-. now apply obj_delete_absent.
Qed.

Lemma undoRow_after_change_witness :
  let g := gridSelect [bob] demo in
  changes (undoRow bob (deleteSelectedRows g)) = changes g /\
  changes (undoRow (obj_set "age" (VNum 36) bob)
             (onCellEditRequest bob (Some "age") (VNum 36) g)) = changes g /\
  exists g1,
    modifySelectedRows (setField "age" (VNum 36)) g = Ok g1 /\
    changes (undoRow (obj_set "age" (VNum 36) bob) g1) = changes g.
Proof.
  intros g.
  assert (Hfresh : obj_get (row_key g bob) (changes g) = None) by reflexivity.
  destruct (undoRow_after_change g bob Hfresh) as (Hdel & Hedit & Hmod).
  split; [apply Hdel; reflexivity | split].
  - apply Hedit. reflexivity.
  - apply (Hmod (setField "age" (VNum 36))); reflexivity.
Defined.

Lemma project_row_untracked g r :
  obj_get (row_key g r) (changes g) = None -> project_row g r = r.
Proof. unfold project_row. now intros ->. Qed.

(** X3. After any sequence of operations, [reset] leaves an empty overlay;
    the view is then the base collection itself, row for row, and no row has a
    modification state or an Undo button. *)
Theorem reset_restores_base :
  forall (ops : list op) (g : Grid),
    let g' := reset (run ops g) in
    changes g' = [] /\
    effectiveRowData g' = rowData g /\
    (forall row, getRowModificationState g' row = None /\
                 undoCellRenderer g' row = None).
Proof.
  intros ops g g'. split; [reflexivity | split].
  - rewrite effectiveRowData_split. subst g'. simpl. rewrite app_nil_r.
    rewrite run_rowData. rewrite <- (map_id (rowData g)) at 2.
    apply map_ext. intros r. now apply project_row_untracked.
  - intros row. now split.
Qed.

(** ** The Undo button and the row colours *)

(** X5. The Undo button is rendered for a row exactly when the overlay has an
    entry under the row's identity; a click on it removes that entry, after
    which the button is gone for the row, while the state of every row of
    another identity stays what it was. *)
Theorem undo_button :
  forall (g : Grid) (row : Row),
    (undoCellRenderer g row = None <-> obj_get (row_key g row) (changes g) = None) /\
    (forall g',
        undoCellRenderer g row = Some g' ->
        obj_get (row_key g row) (changes g') = None /\
        undoCellRenderer g' row = None /\
        (forall other,
            row_key g other <> row_key g row ->
            getRowModificationState g' other = getRowModificationState g other)).
Proof.
  intros g row. unfold undoCellRenderer, getRowModificationState. split.
  - destruct (obj_get (row_key g row) (changes g)); simpl; split; congruence.
  - intros g' H.
    destruct (obj_get (row_key g row) (changes g)) as [m|]; simpl in H;
      [| discriminate].
    injection H as <-. unfold undoRow. rewrite !changes_updateChanges.
    change (row_key (updateChanges _ g) row) with (row_key g row).
    rewrite obj_get_delete_eq. repeat split.
    intros other Hne.
    change (row_key (updateChanges _ g) other) with (row_key g other).
    now rewrite obj_get_delete_ne by congruence.
Qed.

Lemma undo_button_witness :
  let g := addRow row4 demo in
  obj_get "4" (changes (undoRow row4 g)) = None /\
  undoCellRenderer (undoRow row4 g) row4 = None /\
  (forall other,
      row_key g other <> row_key g row4 ->
      getRowModificationState (undoRow row4 g) other =
      getRowModificationState g other).
Proof.
  intros g. apply (proj2 (undo_button g row4) (undoRow row4 g)). reflexivity.
Defined.

(** X6. A rendered row gets a background class exactly when it shows the
    Undo button, and then exactly one: red for [Deleted], green for [Added],
    yellow for [Modified]; its cells are struck through exactly when the row
    is red.  A row node without data gets no class. *)
Theorem row_classes :
  forall (g : Grid) (row : Row),
    applied_classes (rowClassRules g) (Some row) =
      match getRowModificationState g row with
      | None => []
      | Some Deleted => ["!bg-red-100"]
      | Some Added => ["!bg-green-100"]
      | Some Modified => ["!bg-yellow-100"]
      end /\
    (applied_classes (rowClassRules g) (Some row) = [] <->
       undoCellRenderer g row = None) /\
    (applied_classes (cellClassRules g) (Some row) = ["line-through"] <->
       applied_classes (rowClassRules g) (Some row) = ["!bg-red-100"]) /\
    applied_classes (rowClassRules g) None = [] /\
    applied_classes (cellClassRules g) None = [].
Proof.
  intros g row.
  unfold applied_classes, rowClassRules, cellClassRules, undoCellRenderer,
    enableByRowModificationState.
  cbn [filter map fst snd].
  destruct (getRowModificationState g row) as [[ | | ]|]; simpl;
    repeat split; intros; try reflexivity; discriminate.
Qed.

(** ** Deleted rows stay in the view *)

Lemma project_row_modified_at g r :
  project_row g r =
  match modified_at (changes g) (row_key g r) with Some data => data | None => r end.
Proof.
  unfold project_row, modified_at.
  now destruct (obj_get (row_key g r) (changes g)) as [[d|d|]|].
Qed.

Lemma added_rows_insert_deleted n k c :
  added_rows (obj_insert_index n k ModDeleted c) = added_rows c.
Proof.
  induction c as [|[k' m] c IH]; simpl; [reflexivity |].
  destruct (array_index k') as [n'|]; [destruct (n <? n')%N |]; simpl;
    try reflexivity.
  now rewrite IH.
Qed.

Lemma set_deleted_same_view g c row :
  untracked_or_deleted g c row ->
  added_rows (obj_set (row_key g row) ModDeleted c) = added_rows c /\
  (forall k, modified_at (obj_set (row_key g row) ModDeleted c) k = modified_at c k).
Proof.
  intros Hidle. split.
  - unfold obj_set. destruct Hidle as [H | H]; rewrite H.
    + destruct (array_index (row_key g row)).
      * apply added_rows_insert_deleted.
      * rewrite added_rows_app. simpl. apply app_nil_r.
    + now rewrite obj_replace_same.
  - intros k. unfold modified_at. key_cases (row_key g row) k; [| reflexivity].
    now destruct Hidle as [-> | ->].
Qed.

Lemma delete_rows_same_view g selectedRows :
  forall draft,
    (forall r, In r selectedRows -> untracked_or_deleted g draft r) ->
    added_rows (fold_left (delete_row g) selectedRows draft) = added_rows draft /\
    (forall k, modified_at (fold_left (delete_row g) selectedRows draft) k =
               modified_at draft k).
Proof.
  induction selectedRows as [|row rest IH]; intros draft Hidle; simpl; [now split |].
  assert (Hrow : untracked_or_deleted g draft row) by (apply Hidle; now left).
  assert (Hstep : delete_row g draft row = obj_set (row_key g row) ModDeleted draft).
  { unfold delete_row. now destruct Hrow as [-> | ->]. }
  destruct (set_deleted_same_view g draft row Hrow) as [Hadd Hmod].
  rewrite Hstep. destruct (IH (obj_set (row_key g row) ModDeleted draft)) as [IHa IHm].
  - intros r Hr. unfold untracked_or_deleted.
    key_cases (row_key g row) (row_key g r); [now right |].
    apply Hidle. now right.
  - split; [now rewrite IHa | intros k; now rewrite IHm].
Qed.

(** X4. Deleting rows that the overlay does not track (or already tracks as
    [Deleted]) changes nothing in the view: each of them stays where it is,
    with its original values. *)
Theorem deleted_rows_stay_in_view :
  forall (g : Grid) (selectedRows : list Row),
    gridApi g = Some selectedRows ->
    (forall r, In r selectedRows -> untracked_or_deleted g (changes g) r) ->
    effectiveRowData (deleteSelectedRows g) = effectiveRowData g.
Proof.
  intros g sel Hapi Hidle. rewrite !effectiveRowData_split.
  rewrite (step_rowData OpDeleteSelectedRows g _ eq_refl).
  pose proof (changes_deleteSelectedRows g sel Hapi) as Hc.
  destruct (delete_rows_same_view g sel (changes g) Hidle) as [Hadd Hmod].
  rewrite Hc, Hadd. f_equal. apply map_ext. intros r.
  rewrite !project_row_modified_at, Hc.
  replace (row_key (deleteSelectedRows g) r) with (row_key g r)
    by (unfold row_key, getRowId;
        now rewrite (step_idField OpDeleteSelectedRows g _ eq_refl)).
  now rewrite Hmod.
Qed.

Lemma deleted_rows_stay_in_view_witness :
  effectiveRowData (deleteSelectedRows (gridSelect [alice; bob] demo)) =
  effectiveRowData (gridSelect [alice; bob] demo).
Proof.
  apply (deleted_rows_stay_in_view (gridSelect [alice; bob] demo) [alice; bob]).
  - reflexivity.
  - intros r [<- | [<- | []]]; now left.
Defined.

(** ** What the host is told *)

Lemma host_in_sync_updateChanges c g :
  host_in_sync g -> host_in_sync (updateChanges c g).
Proof.
  unfold host_in_sync, page_changes, updateChanges. simpl.
  destruct (onChange g); [intros _; apply last_last | auto].
Qed.

Lemma host_in_sync_gridSelect rows g :
  host_in_sync g -> host_in_sync (gridSelect rows g).
Proof. unfold gridSelect. now destruct (gridApi g). Qed.

Lemma onChange_gridSelect rows g : onChange (gridSelect rows g) = onChange g.
Proof. unfold gridSelect. now destruct (gridApi g). Qed.

Lemma notified_gridSelect rows g : notified (gridSelect rows g) = notified g.
Proof. unfold gridSelect. now destruct (gridApi g). Qed.

(** Each operation either leaves the trace alone or tells the host once. *)
Lemma step_host o g g' :
  step o g = Ok g' ->
  onChange g' = onChange g /\
  (host_in_sync g -> host_in_sync g') /\
  length (notified g') <= S (length (notified g)).
Proof.
  assert (Hupd : forall c,
             onChange (updateChanges c g) = onChange g /\
             (host_in_sync g -> host_in_sync (updateChanges c g)) /\
             length (notified (updateChanges c g)) <= S (length (notified g))).
  { intros c. split; [reflexivity | split].
    - apply host_in_sync_updateChanges.
    - simpl. destruct (onChange g); [rewrite length_app; simpl |]; lia. }
  assert (Hsame : onChange g = onChange g /\
                  (host_in_sync g -> host_in_sync g) /\
                  length (notified g) <= S (length (notified g)))
    by (repeat split; auto).
  destruct o; simpl; intros H; try (injection H as <-); auto.
  - rewrite onChange_gridSelect, notified_gridSelect.
    repeat split; auto. apply host_in_sync_gridSelect.
  - unfold addRow. apply Hupd.
  - unfold deleteSelectedRows, deselectAll. destruct (gridApi g); [| exact Hsame].
    rewrite onChange_gridSelect, notified_gridSelect.
    destruct (Hupd (fold_left (delete_row g) l (changes g))) as (? & ? & ?).
    repeat split; auto. intros Hs. now apply host_in_sync_gridSelect; auto.
  - unfold modifySelectedRows in H. destruct (gridApi g) as [sel|].
    + destruct (modify_rows callback g sel (changes g)); [| discriminate].
      injection H as <-. apply Hupd.
    + now injection H as <-.
  - unfold onCellEditRequest. destruct field as [f|]; [| exact Hsame].
    destruct (String.eqb f EmptyString); [exact Hsame |].
    destruct (obj_get _ (changes g)) as [[ | | ]|]; try exact Hsame; apply Hupd.
  - unfold undoRow. apply Hupd.
  - unfold reset. apply Hupd.
Qed.

(** X8. The host is told of every change, once: after any sequence of
    operations on a component given [onChange], the last payload it received
    (what the demo page keeps as its own [changes]) is the component's
    current overlay, [getChanges()]; it has been called at most once per
    operation, and a component without [onChange] has called nothing. *)
Theorem host_sees_current_overlay :
  forall (rows : list Row) (field : string) (notify : bool) (ops : list op),
    let g := run ops (initial rows field notify) in
    (notify = true -> page_changes g = getChanges g) /\
    (notify = false -> notified g = []) /\
    length (notified g) <= length ops.
Proof.
  intros rows field notify ops.
  assert (Hgen : forall g0,
             let g := run ops g0 in
             onChange g = onChange g0 /\
             (host_in_sync g0 -> host_in_sync g) /\
             length (notified g) <= length ops + length (notified g0)).
  { induction ops as [|o ops IH]; intros g0; simpl;
      [split; [reflexivity | split; [auto | lia]] |].
    destruct (step o g0) as [g1|] eqn:E.
    - destruct (step_host o g0 g1 E) as (Ho & Hs & Hl).
      destruct (IH g1) as (Ho' & Hs' & Hl'). repeat split.
      + congruence.
      + auto.
      + lia.
    - destruct (IH g0) as (Ho' & Hs' & Hl'). repeat split; auto; lia. }
  intros g. destruct (Hgen (initial rows field notify)) as (Ho & Hs & Hl).
  fold g in Ho, Hs, Hl. simpl in Ho, Hl.
  assert (Hsync : host_in_sync g).
  { apply Hs. unfold host_in_sync, page_changes. simpl. now destruct notify. }
  unfold host_in_sync in Hsync. rewrite Ho in Hsync.
  repeat split.
  - intros ->. exact Hsync.
  - intros ->. exact Hsync.
  - lia.
Qed.

Lemma host_sees_current_overlay_witness :
  page_changes
    (run [OpAddRow row4; OpGridReady; OpSelect [bob]; OpDeleteSelectedRows]
         (initial [alice; bob] "id" true)) =
  [("2", ModDeleted); ("4", ModAdded row4)].
Proof.
  apply (proj1 (host_sees_current_overlay [alice; bob] "id" true
                  [OpAddRow row4; OpGridReady; OpSelect [bob];
                   OpDeleteSelectedRows])).
  reflexivity.
Defined.

(** ** One entry per identity *)

Section KeysDistinct.
Context {V : Type}.
Implicit Types (o : jsobj V) (k : string) (v : V).

Lemma NoDup_keys_delete k o : NoDup (keys o) -> NoDup (keys (obj_delete k o)).
Proof.
  unfold keys. induction o as [|[k' v'] o IH]; simpl; [auto |].
  intros H. inversion H as [|? ? Hnin Hnd]; subst.
  destruct (String.eqb k' k); simpl; [auto |].
  constructor; [| auto]. intros Hin. apply Hnin.
  now apply (in_keys_delete k o k').
Qed.

Lemma NoDup_keys_insert_index n k v o :
  ~ In k (keys o) -> NoDup (keys o) -> NoDup (keys (obj_insert_index n k v o)).
Proof.
  unfold keys. induction o as [|[k' v'] o IH]; simpl; intros Hnin H.
  - repeat constructor. tauto.
  - inversion H as [|? ? Hnin' Hnd]; subst.
    destruct (array_index k') as [n'|]; [destruct (n <? n')%N |]; simpl;
      try (constructor; [simpl; tauto | exact H]).
    constructor; [| apply IH; tauto].
    intros Hin. apply (in_keys_insert_index n k v o k') in Hin.
    destruct Hin as [-> | Hin]; tauto.
Qed.

Lemma NoDup_keys_push k v o :
  ~ In k (keys o) -> NoDup (keys o) -> NoDup (keys (o ++ [(k, v)])).
Proof.
  unfold keys. intros Hnin H. rewrite map_app. simpl.
  apply NoDup_app; [exact H | repeat constructor; tauto |].
  intros x Hx [<- | []]. tauto.
Qed.

Lemma NoDup_keys_set k v o : NoDup (keys o) -> NoDup (keys (obj_set k v o)).
Proof.
  intros H. unfold obj_set. destruct (obj_get k o) eqn:E.
  - now rewrite keys_replace.
  - apply obj_get_none_keys in E. destruct (array_index k).
    + now apply NoDup_keys_insert_index.
    + now apply NoDup_keys_push.
Qed.
End KeysDistinct.

Lemma writes_NoDup g c c' : writes g c c' -> NoDup (keys c) -> NoDup (keys c').
Proof.
  induction 1; intros Hnd; auto.
  - apply IHwrites. now apply NoDup_keys_set.
  - apply IHwrites. now apply NoDup_keys_delete.
  - apply IHwrites. constructor.
Qed.

Lemma run_NoDup ops :
  forall g0, NoDup (keys (changes g0)) -> NoDup (keys (changes (run ops g0))).
Proof.
  induction ops as [|o ops IH]; intros g0 Hnd; simpl; [exact Hnd |].
  destruct (step o g0) as [g1|] eqn:E; [| now apply IH].
  apply IH. eapply writes_NoDup; [eapply step_writes; eauto | exact Hnd].
Qed.

(** X9. In every reachable overlay each identity key occurs once: a row is
    never tracked as two things at a time, and what [changes[id]] reads is
    the only entry of that identity. *)
Theorem one_entry_per_identity :
  forall (rows : list Row) (field : string) (g : Grid),
    reachable rows field g ->
    NoDup (keys (changes g)) /\
    (forall k m, In (k, m) (changes g) -> obj_get k (changes g) = Some m).
Proof.
  intros rows field g (notify & ops & ->).
  assert (Hnd : NoDup (keys (changes (run ops (initial rows field notify)))))
    by (apply run_NoDup; constructor).
  split; [exact Hnd |].
  revert Hnd. generalize (changes (run ops (initial rows field notify))).
  intros c. unfold keys. induction c as [|[k' m'] c IH]; simpl; intros Hnd k m Hin.
  - contradiction.
  - inversion Hnd as [|? ? Hnin Hnd']; subst. destruct Hin as [[= -> ->] | Hin].
    + now rewrite String.eqb_refl.
    + destruct (String.eqb k' k) eqn:E; [| now apply IH].
      apply String.eqb_eq in E. subst k'. exfalso. apply Hnin.
      apply in_map_iff. now exists (k, m).
Qed.

Lemma one_entry_per_identity_witness :
  NoDup (keys (changes (run [OpAddRow row4; OpAddRow row10; OpAddRow row4]
                            (initial [alice; bob] "id" true)))) /\
  (forall k m,
      In (k, m) (changes (run [OpAddRow row4; OpAddRow row10; OpAddRow row4]
                              (initial [alice; bob] "id" true))) ->
      obj_get k (changes (run [OpAddRow row4; OpAddRow row10; OpAddRow row4]
                              (initial [alice; bob] "id" true))) = Some m).
Proof.
  apply (one_entry_per_identity [alice; bob] "id").
  exists true, [OpAddRow row4; OpAddRow row10; OpAddRow row4]. reflexivity.
Defined.

(** ** Callbacks that change nothing *)

Lemma modify_rows_unchanged cb g selectedRows draft :
  (forall r, In r selectedRows ->
     obj_get (row_key g r) draft = None /\
     exists originalRow updated,
       find_original g (getRowId g r) = Some originalRow /\
       cb r = Ok updated /\
       deepEqual (VObj originalRow) (VObj updated) = true) ->
  modify_rows cb g selectedRows draft = Ok draft.
Proof.
  induction selectedRows as [|row rest IH]; intros Hall; simpl; [reflexivity |].
  destruct (Hall row (or_introl eq_refl)) as (Hfresh & orig & updated & Hfind & Hcb & Heq).
  unfold modify_row. fold (row_key g row).
  rewrite Hfresh, Hcb, Hfind, Heq. simpl.
  rewrite (obj_delete_absent _ _ Hfresh). apply IH.
  intros r Hr. apply Hall. now right.
Qed.

(** X10. [modifySelectedRows] with a callback whose result, on every selected
    row, is deep-equal to the base row of that identity, the code's comparison
    agreeing (a callback that touches nothing, for one), leaves the overlay
    exactly as it was when the selected rows are untracked: no entry is
    created. *)
Theorem unchanged_rows_not_tracked :
  forall (g : Grid) (selectedRows : list Row) (cb : Callback),
    gridApi g = Some selectedRows ->
    (forall r, In r selectedRows ->
       obj_get (row_key g r) (changes g) = None /\
       exists originalRow updated,
         find_original g (getRowId g r) = Some originalRow /\
         cb r = Ok updated /\
         spec_deep_equal (VObj originalRow) (VObj updated) = true /\
         deepEqual (VObj originalRow) (VObj updated) = true) ->
    exists g',
      modifySelectedRows cb g = Ok g' /\ changes g' = changes g.
Proof.
  intros g sel cb Hapi Hall. exists (updateChanges (changes g) g).
  split; [| reflexivity]. unfold modifySelectedRows. rewrite Hapi.
  rewrite (modify_rows_unchanged cb g sel (changes g)); [reflexivity |].
  intros r Hr. destruct (Hall r Hr) as (Hfresh & orig & updated & Hf & Hcb & _ & Heq).
  split; [exact Hfresh |]. now exists orig, updated.
Qed.

Lemma unchanged_rows_not_tracked_witness :
  exists g',
    modifySelectedRows (fun r => Ok r) (gridSelect [alice; bob] demo) = Ok g' /\
    changes g' = changes (gridSelect [alice; bob] demo).
Proof.
  apply (unchanged_rows_not_tracked (gridSelect [alice; bob] demo) [alice; bob]).
  - reflexivity.
  - intros r [<- | [<- | []]]; (split; [reflexivity |]).
    + exists alice, alice. repeat split.
    + exists bob, bob. repeat split.
Defined.

(** ** A flipped flag is always seen *)

Lemma string_app_assoc (a b c : string) :
  ((a ++ b) ++ c = a ++ (b ++ c))%string.
Proof. induction a as [|x a IH]; simpl; [reflexivity | now rewrite IH]. Qed.

Lemma string_app_nil_r (a : string) : (a ++ EmptyString = a)%string.
Proof. induction a as [|x a IH]; simpl; [reflexivity | now rewrite IH]. Qed.

Lemma string_app_inv_head (s a b : string) :
  (s ++ a = s ++ b)%string -> a = b.
Proof. induction s as [|x s IH]; simpl; [auto | intros [= H]; auto]. Qed.

Lemma JSON_stringify_obj o :
  JSON_stringify (VObj o) =
  Some ("{" ++ join_comma (json_members o) ++ "}")%string.
Proof. reflexivity. Qed.

Lemma join_comma_cons x l :
  join_comma (x :: l) =
  match l with
  | [] => x
  | _ :: _ => (x ++ "," ++ join_comma l)%string
  end.
Proof. now destruct l. Qed.

Lemma bool_text_not_tail (P S : string) (b : bool) :
  (P ++ bool_text b ++ S)%string <> EmptyString.
Proof. destruct P, b; discriminate. Qed.

Lemma json_members_cons k x o :
  json_members ((k, x) :: o) =
  match JSON_stringify x with
  | Some s => (json_quote k ++ ":" ++ s)%string :: json_members o
  | None => json_members o
  end.
Proof. reflexivity. Qed.

Lemma JSON_stringify_bool b : JSON_stringify (VBool b) = Some (bool_text b).
Proof. now destruct b. Qed.

(** The texts of a row and of the row with one boolean field flipped share a
    prefix after which one reads [true] and the other [false]. *)
Lemma flipped_members o k b :
  obj_get k o = Some (VBool b) ->
  exists P S1 S2,
    join_comma (json_members o) = (P ++ bool_text b ++ S1)%string /\
    join_comma (json_members (obj_replace k (VBool (negb b)) o)) =
      (P ++ bool_text (negb b) ++ S2)%string.
Proof.
  induction o as [|[k' x] o IH]; cbn [obj_get obj_replace]; [discriminate |].
  destruct (String.eqb k' k) eqn:E.
  - apply String.eqb_eq in E. subst k'. intros [= ->].
    exists (json_quote k ++ ":")%string.
    rewrite !json_members_cons, !JSON_stringify_bool, !join_comma_cons.
    destruct (json_members o) as [|y l].
    + exists EmptyString, EmptyString.
      now rewrite !string_app_nil_r, !string_app_assoc.
    + exists ("," ++ join_comma (y :: l))%string, ("," ++ join_comma (y :: l))%string.
      now rewrite !string_app_assoc.
  - intros H. destruct (IH H) as (P & S1 & S2 & H1 & H2).
    rewrite !json_members_cons.
    destruct (JSON_stringify x) as [s|]; [| now exists P, S1, S2].
    rewrite !join_comma_cons.
    destruct (json_members o) as [|y l];
      [symmetry in H1; now apply bool_text_not_tail in H1 |].
    destruct (json_members (obj_replace k (VBool (negb b)) o)) as [|y' l'];
      [symmetry in H2; now apply bool_text_not_tail in H2 |].
    exists ((json_quote k' ++ ":" ++ s) ++ "," ++ P)%string, S1, S2.
    rewrite H1, H2. now rewrite !string_app_assoc.
Qed.

Lemma flipped_flag_detected row k b :
  obj_get k row = Some (VBool b) ->
  deepEqual (VObj row) (VObj (obj_set k (VBool (negb b)) row)) = false.
Proof.
  intros H. unfold obj_set. rewrite H. unfold deepEqual.
  rewrite !JSON_stringify_obj.
  destruct (flipped_members row k b H) as (P & S1 & S2 & -> & ->).
  simpl. apply String.eqb_neq. rewrite !string_app_assoc.
  intros Heq. apply string_app_inv_head in Heq. destruct b; discriminate.
Qed.

(** ** The Toggle Vegetarian button *)

(** X11. On an untracked base row whose [vegetarian] field is a boolean (and
    is not the identity field), the page's toggle stores the row with the flag
    flipped as [Modified], whatever the other fields hold; pressing the button
    again on the row then shown flips it back and leaves the overlay exactly
    as it was before the first press. *)
Theorem toggle_twice_restores :
  forall (g : Grid) (row : Row) (b : bool),
    gridApi g = Some [row] ->
    find_original g (getRowId g row) = Some row ->
    obj_get (row_key g row) (changes g) = None ->
    obj_get "vegetarian" row = Some (VBool b) ->
    idField g <> "vegetarian" ->
    let shown := obj_set "vegetarian" (VBool (negb b)) row in
    exists g1 g2,
      handleToggleVegetarian g = Ok g1 /\
      obj_get (row_key g row) (changes g1) = Some (ModModified shown) /\
      handleToggleVegetarian (gridSelect [shown] g1) = Ok g2 /\
      changes g2 = changes g.
Proof.
  intros g row b Hapi Hbase Hfresh Hveg Hid shown.
  assert (Hflip : toggleVegetarian row = Ok shown).
  { unfold toggleVegetarian, get_field. now rewrite Hveg. }
  assert (Hback : toggleVegetarian shown = Ok row).
  { unfold toggleVegetarian, get_field, shown. rewrite obj_get_set_eq. simpl.
    rewrite Bool.negb_involutive. now rewrite obj_set_set_back. }
  assert (Hsame_id : getRowId g shown = getRowId g row).
  { unfold getRowId, shown. now rewrite obj_get_set_ne by congruence. }
  pose proof (flipped_flag_detected row "vegetarian" b Hveg) as Hdiff.
  fold shown in Hdiff.
  set (d1 := obj_set (row_key g row) (ModModified shown) (changes g)).
  assert (Hrow1 : modify_row toggleVegetarian g (changes g) row = Ok d1).
  { unfold modify_row. fold (row_key g row).
    now rewrite Hfresh, Hflip, Hbase, Hdiff. }
  assert (Hrow2 : modify_row toggleVegetarian g d1 shown = Ok (changes g)).
  { unfold modify_row. rewrite Hsame_id. fold (row_key g row).
    unfold d1. rewrite obj_get_set_eq, Hback, Hbase, deepEqual_refl.
    cbn [negb]. now rewrite obj_delete_set_fresh. }
  set (g1 := updateChanges d1 g).
  exists g1, (updateChanges (changes g) (gridSelect [shown] g1)).
  unfold handleToggleVegetarian. repeat split.
  - exact (modifySelectedRows_single toggleVegetarian g row d1 Hapi Hrow1).
  - unfold g1. rewrite changes_updateChanges. unfold d1. apply obj_get_set_eq.
  - apply (modifySelectedRows_single toggleVegetarian (gridSelect [shown] g1) shown).
    + apply gridApi_gridSelect. change (gridApi g1) with (gridApi g). congruence.
    + rewrite changes_gridSelect. change (changes g1) with d1.
      rewrite <- Hrow2. apply modify_row_same.
      * now rewrite rowData_gridSelect.
      * now rewrite idField_gridSelect.
Qed.

Lemma toggle_twice_restores_witness :
  let row := demo_row (mkDemoRow "Bob" 35 false) in
  let g := gridSelect [row] (onGridReady page_grid) in
  let shown := obj_set "vegetarian" (VBool true) row in
  exists g1 g2,
    handleToggleVegetarian g = Ok g1 /\
    obj_get "Bob" (changes g1) = Some (ModModified shown) /\
    handleToggleVegetarian (gridSelect [shown] g1) = Ok g2 /\
    changes g2 = changes g.
Proof.
  intros row g shown.
  apply (toggle_twice_restores g row false); try reflexivity. discriminate.
Defined.

(** ** The Add Row button *)


Section HandleAddRowFacts.
Variables (trim toLowerCase : string -> string).

(** X12. For an answer that does not trim to ["__proto__"] (there [addRow]
    throws inside Immer), [handleAddRow] either shows an alert and leaves the
    component as it is, or adds exactly one row
    [{name: trimmed, age: 0, vegetarian: false}]:
    the trimmed name is then not empty, no base row has the answer's
    lower-cased text as its lower-cased name, and in a grid keyed by [name]
    the row is tracked as [Added] under its trimmed name, never under a
    missing identity. *)
Theorem handleAddRow_outcome :
  forall (answer : option string) (g g' : Grid) (alert : option string),
    idField g = "name" ->
    (forall typed, answer = Some typed -> draft_key (trim typed)) ->
    handleAddRow trim toLowerCase answer g = (g', alert) ->
    (alert <> None /\ g' = g) \/
    (alert = None /\
     exists typed,
       answer = Some typed /\
       trim typed <> EmptyString /\
       (forall r, In r INITIAL_DATA -> toLowerCase (name r) <> toLowerCase typed) /\
       let row := demo_row (mkDemoRow (trim typed) 0 false) in
       g' = addRow row g /\
       getRowId g row = VStr (trim typed) /\
       obj_get (trim typed) (changes g') = Some (ModAdded row)).
Proof.
  intros answer g g' alert Hid _. unfold handleAddRow.
  destruct answer as [typed|]; [| intros [= <- <-]; left; split; congruence].
  destruct (String.eqb typed EmptyString);
    [intros [= <- <-]; left; split; congruence |].
  destruct (String.eqb (trim typed) EmptyString) eqn:Htrim;
    [intros [= <- <-]; left; split; congruence |].
  destruct (existsb _ INITIAL_DATA) eqn:Hdup;
    [intros [= <- <-]; left; split; congruence |].
  intros [= <- <-]. right. split; [reflexivity |]. exists typed.
  apply String.eqb_neq in Htrim. repeat split; auto.
  - intros r Hr Heq.
    assert (Htrue : existsb
                      (fun row => String.eqb (toLowerCase (name row))
                                             (toLowerCase typed))
                      INITIAL_DATA = true).
    { apply existsb_exists. exists r. split; [exact Hr |].
      now apply String.eqb_eq. }
    congruence.
  - unfold getRowId. now rewrite Hid.
  - unfold addRow, row_key, getRowId. rewrite Hid, changes_updateChanges.
    apply obj_get_set_eq.
Qed.

Lemma handleAddRow_accepted typed g :
  snd (handleAddRow trim toLowerCase (Some typed) g) = None ->
  fst (handleAddRow trim toLowerCase (Some typed) g) =
  addRow (demo_row (mkDemoRow (trim typed) 0 false)) g.
Proof.
  unfold handleAddRow.
  destruct (String.eqb typed EmptyString); [discriminate |].
  destruct (String.eqb (trim typed) EmptyString); [discriminate |].
  now destruct (existsb _ INITIAL_DATA).
Qed.

(** X13. The duplicate check of [handleAddRow] reads the answer as typed,
    while the row is stored under the trimmed answer: when an accepted answer
    trims to the name of a base row, the view shows both the base row and the
    new row under one identity, and the base row itself is rendered as
    [Added]. *)
Theorem handleAddRow_trimmed_duplicate :
  forall (typed : string) (g : Grid) (base : DemoRow),
    idField g = "name" ->
    rowData g = map demo_row INITIAL_DATA ->
    snd (handleAddRow trim toLowerCase (Some typed) g) = None ->
    In base INITIAL_DATA ->
    trim typed = name base ->
    let g' := fst (handleAddRow trim toLowerCase (Some typed) g) in
    let row := demo_row (mkDemoRow (trim typed) 0 false) in
    getRowId g' row = getRowId g' (demo_row base) /\
    In row (effectiveRowData g') /\
    In (demo_row base) (effectiveRowData g') /\
    getRowModificationState g' (demo_row base) = Some Added.
Proof.
  intros typed g base Hid Hrows Hok Hin Htrim g' row.
  pose proof (handleAddRow_accepted typed g Hok) as Hg1.
  fold g' row in Hg1. clearbody g'.
  assert (Hget : obj_get (trim typed) (changes g') = Some (ModAdded row)).
  { rewrite Hg1. unfold addRow, row_key, getRowId. rewrite Hid, changes_updateChanges.
    apply obj_get_set_eq. }
  assert (Hid1 : idField g' = "name") by (now rewrite Hg1).
  assert (Hkey : row_key g' (demo_row base) = trim typed).
  { unfold row_key, getRowId. rewrite Hid1, Htrim. reflexivity. }
  repeat split.
  - unfold getRowId, row. rewrite Hid1, Htrim. reflexivity.
  - rewrite effectiveRowData_split. apply in_or_app. right.
    apply added_entry_shown with (trim typed). exact Hget.
  - rewrite effectiveRowData_split. apply in_or_app. left.
    apply in_map_iff. exists (demo_row base). split.
    + unfold project_row. now rewrite Hkey, Hget.
    + rewrite Hg1. change (rowData (addRow row g)) with (rowData g).
      rewrite Hrows. now apply in_map.
  - unfold getRowModificationState. now rewrite Hkey, Hget.
Qed.
End HandleAddRowFacts.

Lemma handleAddRow_outcome_witness :
  let row := demo_row (mkDemoRow "Zoe" 0 false) in
  (@None string <> None /\ addRow row page_grid = page_grid) \/
  (@None string = None /\
   exists typed,
     Some "  Zoe " = Some typed /\
     trim_ascii typed <> EmptyString /\
     (forall r, In r INITIAL_DATA -> lower_ascii (name r) <> lower_ascii typed) /\
     let row' := demo_row (mkDemoRow (trim_ascii typed) 0 false) in
     addRow row page_grid = addRow row' page_grid /\
     getRowId page_grid row' = VStr (trim_ascii typed) /\
     obj_get (trim_ascii typed) (changes (addRow row page_grid)) =
       Some (ModAdded row')).
Proof.
  intros row.
  apply (handleAddRow_outcome trim_ascii lower_ascii (Some "  Zoe ") page_grid
           (addRow row page_grid) None); try reflexivity.
  intros typed [= <-]. discriminate.
Defined.

(** The answer [" Alice"] passes the duplicate check and is stored as Alice. *)
Lemma handleAddRow_trimmed_duplicate_witness :
  let g' := fst (handleAddRow trim_ascii lower_ascii (Some " Alice") page_grid) in
  let row := demo_row (mkDemoRow (trim_ascii " Alice") 0 false) in
  let base := mkDemoRow "Alice" 28 true in
  getRowId g' row = getRowId g' (demo_row base) /\
  In row (effectiveRowData g') /\
  In (demo_row base) (effectiveRowData g') /\
  getRowModificationState g' (demo_row base) = Some Added.
Proof.
  intros g' row base.
  apply (handleAddRow_trimmed_duplicate trim_ascii lower_ascii " Alice"
           page_grid base); try reflexivity.
  simpl. tauto.
Defined.

Lemma row_classes_witness :
  applied_classes (rowClassRules (addRow row4 demo)) (Some row4) = ["!bg-green-100"] /\
  (applied_classes (rowClassRules (addRow row4 demo)) (Some alice) = [] <->
     undoCellRenderer (addRow row4 demo) alice = None).
Proof.
  split.
  - exact (proj1 (row_classes (addRow row4 demo) row4)).
  - exact (proj1 (proj2 (row_classes (addRow row4 demo) alice))).
Defined.

(** ** Editing in the grid and editing through the handle *)

(** X14. A cell-edit request and [modifySelectedRows] with the callback that
    assigns the same field to the same row, selected alone, leave the same
    overlay, whether the row is untracked, [Modified] or [Deleted]; for an
    [Added] row they agree when the assignment changes the row (when it does
    not, the handle keeps the entry while the cell edit stores the row it was
    given). *)
Theorem cell_edit_agrees_with_modify :
  forall (g : Grid) (row : Row) (field : string) (newValue : value),
    field <> EmptyString ->
    gridApi g = Some [row] ->
    (forall data,
        obj_get (row_key g row) (changes g) = Some (ModAdded data) ->
        deepEqual (VObj row) (VObj (obj_set field newValue row)) = false) ->
    exists g',
      modifySelectedRows (setField field newValue) g = Ok g' /\
      changes g' = changes (onCellEditRequest row (Some field) newValue g).
Proof.
  intros g row field newValue Hfield Hapi Hadded.
  apply String.eqb_neq in Hfield.
  unfold modifySelectedRows, onCellEditRequest. rewrite Hapi, Hfield.
  cbn [modify_rows]. unfold modify_row, setField, row_key in *.
  destruct (obj_get (to_key (getRowId g row)) (changes g)) as [[d|d|]|] eqn:E.
  - rewrite (Hadded d eq_refl). simpl. eexists. split; reflexivity.
  - destruct (find_original g (getRowId g row)) as [orig|];
      [destruct (deepEqual (VObj orig) (VObj (obj_set field newValue row))) |];
      simpl; eexists; split; reflexivity.
  - eexists. split; reflexivity.
  - destruct (find_original g (getRowId g row)) as [orig|];
      [destruct (deepEqual (VObj orig) (VObj (obj_set field newValue row))) |];
      simpl; eexists; split; reflexivity.
Qed.

Lemma cell_edit_agrees_with_modify_witness :
  exists g',
    modifySelectedRows (setField "age" (VNum 36)) (gridSelect [bob] demo) = Ok g' /\
    changes g' =
    changes (onCellEditRequest bob (Some "age") (VNum 36) (gridSelect [bob] demo)).
Proof.
  apply (cell_edit_agrees_with_modify (gridSelect [bob] demo) bob "age" (VNum 36)).
  - discriminate.
  - reflexivity.
  - intros data H. discriminate H.
Defined.
